(** * EduCanvas Live: the classroom session coordinator of [backend/server.js]

    A shallow embedding of the Socket.IO event handlers of
    [backend/server.js] and the properties of the room state they maintain:
    the single admin, the cascading reset, whiteboard and moderation
    authorisation, the chat log and the PeerJS signalling relay.

    The handlers run one at a time to completion (Node's event loop), so
    every handler is a function from the state before to the state after
    together with the list of messages it emitted, in emission order. *)

From stdpp Require Import gmap strings list fin_maps pretty.

Local Open Scope string_scope.
Local Open Scope list_scope.

Set Warnings "-clear-no-such-hyp".

(** ** Data model *)

(** [role] is one of the strings ['student'] and ['admin']. *)
Inductive Role := Student | Admin.

#[global] Instance Role_eq_dec : EqDecision Role.
Proof. solve_decision. Defined.

Definition role_str (r : Role) : string :=
  match r with Student => "student" | Admin => "admin" end.

(** An entry of [appState.users]:
    [{ name, role, streamActive, canDraw, inVideoCall, peerId }];
    [peerId] is [null] ([None]) or a string. *)
Record User := mkUser {
  name : string;
  role : Role;
  streamActive : bool;
  canDraw : bool;
  inVideoCall : bool;
  peerId : option string
}.

#[global] Instance User_eq_dec : EqDecision User.
Proof. solve_decision. Defined.

(** An entry of [appState.chat]. *)
Record ChatMessage := mkChat {
  cm_id : string;
  cm_userId : string;
  cm_username : string;
  cm_message : string;
  cm_timestamp : string;
  cm_role : Role
}.

#[global] Instance ChatMessage_eq_dec : EqDecision ChatMessage.
Proof. solve_decision. Defined.

(** An element of the [peers] array answered to [peer_ready]. *)
Record PeerInfo := mkPeer {
  pi_peerId : option string;
  pi_userName : string;
  pi_userRole : Role
}.

(** The state a handler sees.  The first five fields are [appState]; the
    next three are the part of the Socket.IO runtime and of Node's timer
    queue that the handlers read or drive:
    - [sockets] are the keys of [io.sockets.sockets], the connected sockets;
    - [classroom] are the members of the room ['classroom'];
    - [timers] are the sockets captured by the pending [setTimeout]
      callbacks of [kick_user], oldest first (all have the same delay).
    The last one is [Object.prototype.canDraw], [undefined] ([None]) when the
    server starts: [appState.users] is a plain object, [users] holds its own
    properties, and a lookup under a key that is not an own property goes on
    to [Object.prototype]. *)
Record State := mkState {
  admin : option string;
  users : gmap string User;
  chat : list ChatMessage;
  drawingEnabled : bool;
  adminCode : string;
  sockets : gset string;
  classroom : gset string;
  timers : list string;
  prototype_canDraw : option bool
}.

Definition appState : State :=
  {| admin := None; users := ∅; chat := []; drawingEnabled := true;
     adminCode := "teach123";
     sockets := ∅; classroom := ∅; timers := [];
     prototype_canDraw := None |}.

(** Field assignments. *)
Definition set_admin_field (a : option string) (st : State) : State :=
  mkState a (users st) (chat st) (drawingEnabled st) (adminCode st)
          (sockets st) (classroom st) (timers st) (prototype_canDraw st).
Definition set_users (m : gmap string User) (st : State) : State :=
  mkState (admin st) m (chat st) (drawingEnabled st) (adminCode st)
          (sockets st) (classroom st) (timers st) (prototype_canDraw st).
Definition set_chat (c : list ChatMessage) (st : State) : State :=
  mkState (admin st) (users st) c (drawingEnabled st) (adminCode st)
          (sockets st) (classroom st) (timers st) (prototype_canDraw st).
Definition set_drawingEnabled (b : bool) (st : State) : State :=
  mkState (admin st) (users st) (chat st) b (adminCode st)
          (sockets st) (classroom st) (timers st) (prototype_canDraw st).
Definition set_sockets (s : gset string) (st : State) : State :=
  mkState (admin st) (users st) (chat st) (drawingEnabled st) (adminCode st)
          s (classroom st) (timers st) (prototype_canDraw st).
Definition set_classroom (s : gset string) (st : State) : State :=
  mkState (admin st) (users st) (chat st) (drawingEnabled st) (adminCode st)
          (sockets st) s (timers st) (prototype_canDraw st).
Definition set_timers (t : list string) (st : State) : State :=
  mkState (admin st) (users st) (chat st) (drawingEnabled st) (adminCode st)
          (sockets st) (classroom st) t (prototype_canDraw st).
Definition set_prototype_canDraw (b : option bool) (st : State) : State :=
  mkState (admin st) (users st) (chat st) (drawingEnabled st) (adminCode st)
          (sockets st) (classroom st) (timers st) b.

Definition set_role (r : Role) (u : User) : User :=
  mkUser (name u) r (streamActive u) (canDraw u) (inVideoCall u) (peerId u).
Definition set_streamActive (b : bool) (u : User) : User :=
  mkUser (name u) (role u) b (canDraw u) (inVideoCall u) (peerId u).
Definition set_canDraw (b : bool) (u : User) : User :=
  mkUser (name u) (role u) (streamActive u) b (inVideoCall u) (peerId u).
(** [user.inVideoCall = b; user.peerId = p] *)
Definition set_peer (b : bool) (p : option string) (u : User) : User :=
  mkUser (name u) (role u) (streamActive u) (canDraw u) b p.

(** JavaScript truthiness of a value that is [null] or a string: [null]
    and the empty string are falsy. *)
Definition truthy (v : option string) : bool :=
  match v with
  | None => false
  | Some s => bool_decide (s ≠ "")
  end.

(** The functions of [Object.prototype], by the names under which every
    plain object inherits them. *)
Definition Object_prototype_functions : list string :=
  ["constructor"; "hasOwnProperty"; "isPrototypeOf"; "propertyIsEnumerable";
   "toLocaleString"; "toString"; "valueOf"; "__defineGetter__";
   "__defineSetter__"; "__lookupGetter__"; "__lookupSetter__"].

(** The keys under which a lookup in a plain object can find something
    that is not an own property: the functions above, ['__proto__'], and
    ['canDraw'], which [set_user_draw] can put on [Object.prototype]. *)
Definition prototype_names : list string :=
  "__proto__" :: "canDraw" :: Object_prototype_functions.

(** What [appState.users[key]] is when [key] is not an own property and the
    lookup finds it on [Object.prototype]: the prototype itself (key
    ['__proto__']), one of its functions, or the boolean in
    [Object.prototype.canDraw]. *)
Inductive Inherited :=
| Object_prototype
| builtin (name : string)
| flag (b : bool).

(** Its truthiness: objects and functions are truthy. *)
Definition truthy_inherited (v : Inherited) : bool :=
  match v with
  | flag b => b
  | _ => true
  end.

(** The lookup on [Object.prototype]. *)
Definition inherited (key : string) (st : State) : option Inherited :=
  if decide (key = "__proto__") then Some Object_prototype
  else if decide (key ∈ Object_prototype_functions) then Some (builtin key)
  else if decide (key = "canDraw") then flag <$> prototype_canDraw st
  else None.

(** ** Messages *)

(** What the server emits; the constructors are the event names.
    [user_updated_inherited] is the event ['user_updated'] whose [user] is
    not an entry but a value found on [Object.prototype]. *)
Module Out.
Inductive t :=
| join_success (role : Role) (users : gmap string User)
    (chat : list ChatMessage) (drawingEnabled : bool) (isAdmin : bool)
| user_joined (userId : string) (user : User)
| admin_set (isAdmin : bool) (error : option string)
| new_admin (userId : string) (user : User)
| peers_in_room (peers : list PeerInfo)
| peer_joined (peerId userName userRole : string)
| peer_left (peerId : string)
| session_ended (reason : string)
| user_left (userId : string)
| new_message (m : ChatMessage)
| message_deleted (messageId : string)
| draw_data (data : string) (userId : string)
| clear_canvas
| drawing_toggled (enabled : bool)
| user_updated (userId : string) (user : User)
| user_updated_inherited (userId : string) (user : Inherited)
| kicked (reason : string)
| user_stream_status (userId : string) (streamActive : bool).
End Out.

(** What a client sends; the constructors are the event names and their
    arguments the fields the handler destructures from [data], at the types
    the frontend sends them.  [adminCode] is optional.  [draw_data] carries
    an opaque payload.  [chat_message] also carries the two clock readings
    the handler takes: [Date.now()] in milliseconds and the rendering of
    [new Date().toISOString()]. *)
Module In.
Inductive t :=
| join_room (name : string) (adminCode : option string)
| set_admin (adminCode : option string)
| peer_ready (peerId : string)
| peer_left (peerId : string)
| peer_joined (peerId userName userRole : string)
| leave_session
| chat_message (message : string) (now : N) (iso : string)
| delete_message (messageId : string)
| draw_data (data : string)
| clear_canvas
| toggle_draw (enabled : bool)
| set_user_draw (targetUserId : string) (canDraw : bool)
| kick_user (targetUserId : string)
| stream_status (streamActive : bool).
End In.

(** One [emit]: the message and the sockets it is delivered to, resolved
    when the handler emits. *)
Record Emission := mkEmit {
  rcpt : gset string;
  msg : Out.t
}.

(** [socket.emit(...)] *)
Definition socket_emit (sid : string) (m : Out.t) : Emission :=
  mkEmit {[sid]} m.
(** [socket.to('classroom').emit(...)]: the room without the sender. *)
Definition socket_to_classroom (sid : string) (st : State) (m : Out.t)
  : Emission :=
  mkEmit (classroom st ∖ {[sid]}) m.
(** [io.to('classroom').emit(...)]: the whole room. *)
Definition io_to_classroom (st : State) (m : Out.t) : Emission :=
  mkEmit (classroom st) m.

(** The result of running a handler: it returned, or it threw an uncaught
    [TypeError]; either way the effects made so far stay. *)
Inductive Outcome :=
| Done (st : State) (out : list Emission)
| Thrown (st : State) (out : list Emission).

Definition final (o : Outcome) : State :=
  match o with Done st _ | Thrown st _ => st end.
Definition emitted (o : Outcome) : list Emission :=
  match o with Done _ out | Thrown _ out => out end.
Definition returned (r : State * list Emission) : Outcome :=
  Done r.1 r.2.

(** ** The handlers of [io.on('connection', (socket) => ...)]

    [sid] is [socket.id] of the socket the handler is registered on. *)

(** [socket.on('join_room', ...)] *)
Definition on_join_room (sid : string) (nm : string) (code : option string)
    (st : State) : State * list Emission :=
  let claim := bool_decide (code = Some (adminCode st))
               && negb (truthy (admin st)) in
  let role := if claim then Admin else Student in
  let st1 := if claim then set_admin_field (Some sid) st else st in
  let user := mkUser nm role false true false None in
  let st2 := set_users (<[sid := user]> (users st1)) st1 in
  let st3 := set_classroom ({[sid]} ∪ classroom st2) st2 in
  (st3,
   [socket_emit sid
      (Out.join_success role (users st3) (chat st3) (drawingEnabled st3)
         (bool_decide (role = Admin)));
    socket_to_classroom sid st3 (Out.user_joined sid user)]).

(** [socket.on('set_admin', ...)].  [appState.admin] is assigned before
    [appState.users[socket.id].role]; when the socket has not joined, the
    second assignment throws. *)
Definition on_set_admin (sid : string) (code : option string) (st : State)
  : Outcome :=
  if bool_decide (code = Some (adminCode st)) && negb (truthy (admin st))
  then
    let st1 := set_admin_field (Some sid) st in
    match users st1 !! sid with
    | None => Thrown st1 []
    | Some u =>
        let user := set_role Admin u in
        let st2 := set_users (<[sid := user]> (users st1)) st1 in
        Done st2
          [socket_emit sid (Out.admin_set true None);
           socket_to_classroom sid st2 (Out.new_admin sid user)]
    end
  else
    Done st
      [socket_emit sid
         (Out.admin_set false (Some "Invalid code or admin already exists"))].

(** The [peers] array of [peer_ready]: the entries of [appState.users]
    other than the caller's that hold a truthy [peerId] different from the
    caller's.  The order of [Object.entries] is not modelled. *)
Definition peers_of (sid p : string) (m : gmap string User) : list PeerInfo :=
  (λ e : string * User, mkPeer (peerId e.2) (name e.2) (role e.2)) <$>
  filter (λ e : string * User,
            e.1 ≠ sid ∧ truthy (peerId e.2) = true ∧ peerId e.2 ≠ Some p)
         (map_to_list m).

(** [socket.on('peer_ready', ...)] *)
Definition on_peer_ready (sid p : string) (st : State)
  : State * list Emission :=
  match users st !! sid with
  | None => (st, [])
  | Some u =>
      if decide (peerId u = Some p) then (st, [])
      else
        let user := set_peer true (Some p) u in
        let st1 := set_users (<[sid := user]> (users st)) st in
        (st1,
         [socket_emit sid (Out.peers_in_room (peers_of sid p (users st1)));
          socket_to_classroom sid st1
            (Out.peer_joined p (name user) (role_str (role user)))])
  end.

(** [socket.on('peer_left', ...)] *)
Definition on_peer_left (sid p : string) (st : State)
  : State * list Emission :=
  match users st !! sid with
  | None => (st, [])
  | Some u =>
      if decide (peerId u = Some p) then
        let st1 := set_users (<[sid := set_peer false None u]> (users st)) st in
        (st1, [socket_to_classroom sid st1 (Out.peer_left p)])
      else (st, [])
  end.

(** [socket.on('peer_joined', ...)], the back-compat event. *)
Definition on_peer_joined (sid p userName userRole : string) (st : State)
  : State * list Emission :=
  match users st !! sid with
  | None => (st, [])
  | Some u =>
      let st1 :=
        set_users (<[sid := set_peer true (Some p) u]> (users st)) st in
      (st1, [socket_to_classroom sid st1 (Out.peer_joined p userName userRole)])
  end.

(** "Reset app state": the four assignments made when the admin goes. *)
Definition reset_app_state (st : State) : State :=
  set_drawingEnabled true
    (set_chat [] (set_users ∅ (set_admin_field None st))).

(** [socket.on('disconnect', ...)] *)
Definition on_disconnect (sid : string) (st : State) : State * list Emission :=
  match users st !! sid with
  | None => (st, [])
  | Some u =>
      let out1 :=
        match peerId u with
        | Some p =>
            if truthy (peerId u)
            then [socket_to_classroom sid st (Out.peer_left p)] else []
        | None => []
        end in
      match role u with
      | Admin =>
          (reset_app_state st,
           out1 ++ [io_to_classroom st
                      (Out.session_ended "Admin left the session")])
      | Student =>
          let st1 := set_users (delete sid (users st)) st in
          (st1, out1 ++ [socket_to_classroom sid st1 (Out.user_left sid)])
      end
  end.

(** Socket.IO closing a socket ([socket.disconnect()], or the transport
    closing): a socket that is not connected is left alone; otherwise it
    leaves its rooms, is removed from [io.sockets.sockets], and then its
    ['disconnect'] listeners run. *)
Definition close_socket (sid : string) (st : State) : State * list Emission :=
  if decide (sid ∈ sockets st) then
    on_disconnect sid
      (set_sockets (sockets st ∖ {[sid]})
         (set_classroom (classroom st ∖ {[sid]}) st))
  else (st, []).

(** [socket.on('leave_session', ...)]; it ends with [socket.disconnect()]. *)
Definition on_leave_session (sid : string) (st : State)
  : State * list Emission :=
  let r1 :=
    match users st !! sid with
    | None => (st, [])
    | Some u =>
        match role u with
        | Admin =>
            (reset_app_state st,
             [io_to_classroom st (Out.session_ended "Admin left the session")])
        | Student =>
            let st1 := set_users (delete sid (users st)) st in
            (st1, [socket_to_classroom sid st1 (Out.user_left sid)])
        end
    end in
  let r2 := close_socket sid r1.1 in
  (r2.1, r1.2 ++ r2.2).

(** [socket.on('chat_message', ...)]; the id is [Date.now().toString()]. *)
Definition on_chat_message (sid message : string) (now : N) (iso : string)
    (st : State) : State * list Emission :=
  match users st !! sid with
  | None => (st, [])
  | Some u =>
      let chatMessage := mkChat (pretty now) sid (name u) message iso (role u) in
      let st1 := set_chat (chat st ++ [chatMessage]) st in
      (st1, [io_to_classroom st1 (Out.new_message chatMessage)])
  end.

(** [user && user.role === 'admin'] *)
Definition is_admin (sid : string) (st : State) : bool :=
  match users st !! sid with
  | Some u => bool_decide (role u = Admin)
  | None => false
  end.

(** [socket.on('delete_message', ...)] *)
Definition on_delete_message (sid messageId : string) (st : State)
  : State * list Emission :=
  if is_admin sid st then
    let st1 :=
      set_chat (filter (λ m : ChatMessage, cm_id m ≠ messageId) (chat st)) st in
    (st1, [io_to_classroom st1 (Out.message_deleted messageId)])
  else (st, []).

(** [socket.on('draw_data', ...)]: [{...data, userId: socket.id}] goes to
    the room without the sender. *)
Definition may_draw (u : User) (st : State) : bool :=
  bool_decide (role u = Admin) || (drawingEnabled st && canDraw u).

Definition on_draw_data (sid data : string) (st : State)
  : State * list Emission :=
  match users st !! sid with
  | None => (st, [])
  | Some u =>
      if may_draw u st
      then (st, [socket_to_classroom sid st (Out.draw_data data sid)])
      else (st, [])
  end.

(** [socket.on('clear_canvas', ...)] *)
Definition on_clear_canvas (sid : string) (st : State)
  : State * list Emission :=
  if is_admin sid st then (st, [io_to_classroom st Out.clear_canvas])
  else (st, []).

(** [socket.on('toggle_draw', ...)] *)
Definition on_toggle_draw (sid : string) (enabled : bool) (st : State)
  : State * list Emission :=
  if is_admin sid st then
    let st1 := set_drawingEnabled enabled st in
    (st1, [io_to_classroom st1 (Out.drawing_toggled enabled)])
  else (st, []).

(** [appState.users[targetUserId].canDraw = !!canDraw] when
    [appState.users[targetUserId]] is an inherited value: on the prototype
    it sets [Object.prototype.canDraw]; on a function it sets a property
    nothing reads; on a boolean it does nothing (the file is not in strict
    mode). *)
Definition assign_canDraw (v : Inherited) (cd : bool) (st : State) : State :=
  match v with
  | Object_prototype => set_prototype_canDraw (Some cd) st
  | _ => st
  end.

(** [socket.on('set_user_draw', ...)].  [targetUserId] is chosen by the
    client, so the lookup can end on [Object.prototype]. *)
Definition on_set_user_draw (sid target : string) (cd : bool) (st : State)
  : State * list Emission :=
  if is_admin sid st then
    match users st !! target with
    | None =>
        match inherited target st with
        | None => (st, [])
        | Some v =>
            if truthy_inherited v then
              let st1 := assign_canDraw v cd st in
              (st1, [io_to_classroom st1 (Out.user_updated_inherited target v)])
            else (st, [])
        end
    | Some t =>
        let user := set_canDraw cd t in
        let st1 := set_users (<[target := user]> (users st)) st in
        (st1, [io_to_classroom st1 (Out.user_updated target user)])
    end
  else (st, []).

(** [socket.on('kick_user', ...)].  With a live target socket the target
    is told and a timer is set that will disconnect it; without one the
    entry of [appState.users], if any, is deleted.  [targetUserId] is chosen
    by the client: when it is no own property but the lookup finds a truthy
    value on [Object.prototype], [delete] removes nothing and [user_left] is
    sent all the same. *)
Definition on_kick_user (sid target : string) (st : State)
  : State * list Emission :=
  if is_admin sid st then
    if decide (target ∈ sockets st) then
      (set_timers (timers st ++ [target]) st,
       [socket_emit target (Out.kicked "Removed by admin")])
    else
      match users st !! target with
      | None =>
          match inherited target st with
          | None => (st, [])
          | Some v =>
              if truthy_inherited v
              then (st, [io_to_classroom st (Out.user_left target)])
              else (st, [])
          end
      | Some _ =>
          let st1 := set_users (delete target (users st)) st in
          (st1, [io_to_classroom st1 (Out.user_left target)])
      end
  else (st, []).

(** [socket.on('stream_status', ...)] *)
Definition on_stream_status (sid : string) (b : bool) (st : State)
  : State * list Emission :=
  match users st !! sid with
  | None => (st, [])
  | Some u =>
      let st1 := set_users (<[sid := set_streamActive b u]> (users st)) st in
      (st1, [socket_to_classroom sid st1 (Out.user_stream_status sid b)])
  end.

(** ** The event loop *)

(** The listener a client event is dispatched to. *)
Definition handle (sid : string) (e : In.t) (st : State) : Outcome :=
  match e with
  | In.join_room nm code => returned (on_join_room sid nm code st)
  | In.set_admin code => on_set_admin sid code st
  | In.peer_ready p => returned (on_peer_ready sid p st)
  | In.peer_left p => returned (on_peer_left sid p st)
  | In.peer_joined p un ur => returned (on_peer_joined sid p un ur st)
  | In.leave_session => returned (on_leave_session sid st)
  | In.chat_message m now iso => returned (on_chat_message sid m now iso st)
  | In.delete_message mid => returned (on_delete_message sid mid st)
  | In.draw_data d => returned (on_draw_data sid d st)
  | In.clear_canvas => returned (on_clear_canvas sid st)
  | In.toggle_draw b => returned (on_toggle_draw sid b st)
  | In.set_user_draw t b => returned (on_set_user_draw sid t b st)
  | In.kick_user t => returned (on_kick_user sid t st)
  | In.stream_status b => returned (on_stream_status sid b st)
  end.

(** What the event loop can run next:
    - a client connects under a socket id (Socket.IO draws its ids at
      random, twenty characters long: they are non-empty, no two connected
      sockets share one, and the ids that would spell one of
      [prototype_names] are left out, so that [appState.users[socket.id]]
      is the own property or [undefined]);
    - a connected socket delivers a client event;
    - the transport of a socket closes;
    - the oldest pending [kick_user] timer fires and runs
      [targetSocket.disconnect(true)]. *)
Inductive Event :=
| connection (sid : string)
| packet (sid : string) (e : In.t)
| transport_close (sid : string)
| timeout.

Definition step (ev : Event) (st : State) : Outcome :=
  match ev with
  | connection sid =>
      if decide (sid ≠ "" ∧ (sid ∉ prototype_names) ∧ (sid ∉ sockets st))
      then Done (set_sockets ({[sid]} ∪ sockets st) st) []
      else Done st []
  | packet sid e =>
      if decide (sid ∈ sockets st) then handle sid e st else Done st []
  | transport_close sid => returned (close_socket sid st)
  | timeout =>
      match timers st with
      | [] => Done st []
      | t :: ts => returned (close_socket t (set_timers ts st))
      end
  end.

(** The state after a sequence of events, from [st].  A handler that throws
    keeps the effects it made; the run goes on from there, which covers a
    process that survives the exception as well as one that does not. *)
Fixpoint run (evs : list Event) (st : State) : State :=
  match evs with
  | [] => st
  | ev :: evs' => run evs' (final (step ev st))
  end.

(** The messages of the last event of [evs ++ [ev]]. *)
Definition last_out (evs : list Event) (ev : Event) : list Emission :=
  emitted (step ev (run evs appState)).

(** ** Properties of states and messages *)

(** What every state the event loop reaches satisfies:
    - no connected socket has the empty id;
    - the room holds connected sockets only;
    - every entry of [appState.users] belongs to a member of the room;
    - [appState.admin] is never the empty string, so that it is truthy
      whenever it is set;
    - an entry with role ['admin'] is the entry of [appState.admin]. *)
Record inv (st : State) : Prop := mkInv {
  inv_ids : "" ∉ sockets st;
  inv_room : classroom st ⊆ sockets st;
  inv_users : dom (users st) ⊆ classroom st;
  inv_truthy : admin st ≠ Some "";
  inv_admin : ∀ sid u,
    users st !! sid = Some u → role u = Admin → admin st = Some sid
}.

(** At most one entry of [appState.users] has role ['admin']. *)
Definition at_most_one_owner (st : State) : Prop :=
  ∀ a b ua ub,
    users st !! a = Some ua → role ua = Admin →
    users st !! b = Some ub → role ub = Admin → a = b.

(** Some entry has role ['admin']. *)
Definition owner_exists (st : State) : Prop :=
  ∃ a ua, users st !! a = Some ua ∧ role ua = Admin.

(** Socket [r] is delivered message [m] by one of the emissions [out]. *)
Definition receives (r : string) (m : Out.t) (out : list Emission) : Prop :=
  ∃ e, e ∈ out ∧ r ∈ rcpt e ∧ msg e = m.

(** The room state as it is when the server starts. *)
Definition fully_reset (st : State) : Prop :=
  users st = ∅ ∧ chat st = [] ∧ drawingEnabled st = true ∧ admin st = None.

(** The state Socket.IO leaves once [sid] is out of its rooms. *)
Definition detached (sid : string) (st : State) : State :=
  set_sockets (sockets st ∖ {[sid]})
    (set_classroom (classroom st ∖ {[sid]}) st).

(** The [peer_left] notice of the ['disconnect'] listener. *)
Definition peer_notice (sid : string) (u : User) (st : State)
  : list Emission :=
  match peerId u with
  | Some p =>
      if truthy (peerId u)
      then [socket_to_classroom sid st (Out.peer_left p)] else []
  | None => []
  end.

(** The condition of the [draw_data] listener on a joined socket. *)
Definition draw_authorized (u : User) (st : State) : Prop :=
  role u = Admin ∨ (drawingEnabled st = true ∧ canDraw u = true).

(** The five events whose listeners start with
    [user && user.role === 'admin']. *)
Definition owner_only (e : In.t) : Prop :=
  match e with
  | In.delete_message _ | In.clear_canvas | In.toggle_draw _
  | In.set_user_draw _ _ | In.kick_user _ => True
  | _ => False
  end.

(** A message that tells the room of a change of the roster entry of
    [target]. *)
Definition roster_change (target : string) (m : Out.t) : Prop :=
  m = Out.user_left target ∨ ∃ u, m = Out.user_updated target u.

(** The event left no entry for [target] and told the room of the
    change. *)
Definition cleans_up (target : string) (o : Outcome) : Prop :=
  users (final o) !! target = None
  ∧ ∃ e, e ∈ emitted o ∧ roster_change target (msg e).

(** The entry of [x] holds the handle [p]. *)
Definition registered (m : gmap string User) (x p : string) : Prop :=
  ∃ u, m !! x = Some u ∧ peerId u = Some p.

(** No two entries hold the same handle. *)
Definition peer_handles_unique (st : State) : Prop :=
  ∀ a b p, registered (users st) a p → registered (users st) b p → a = b.

(** The handle a [peer_ready] or [peer_joined] presents is held by no
    entry other than the sender's. *)
Definition presents_free_handle (ev : Event) (st : State) : Prop :=
  match ev with
  | packet sid (In.peer_ready p) | packet sid (In.peer_joined p _ _) =>
      ∀ b, registered (users st) b p → b = sid
  | _ => True
  end.

(** Every event of the run presents a free handle in the state it is
    handled in. *)
Fixpoint handles_free (evs : list Event) (st : State) : Prop :=
  match evs with
  | [] => True
  | ev :: evs' =>
      presents_free_handle ev st ∧ handles_free evs' (final (step ev st))
  end.

(** The ids of the chat log are pairwise distinct. *)
Definition chat_ids_unique (st : State) : Prop := NoDup (cm_id <$> chat st).

(** The clock reading of a [chat_message] is not the id of a message of
    the log. *)
Definition clock_fresh (ev : Event) (st : State) : Prop :=
  match ev with
  | packet _ (In.chat_message _ now _) => pretty now ∉ cm_id <$> chat st
  | _ => True
  end.

(** Every [chat_message] of the run reads a fresh clock value. *)
Fixpoint clock_ticks (evs : list Event) (st : State) : Prop :=
  match evs with
  | [] => True
  | ev :: evs' => clock_fresh ev st ∧ clock_ticks evs' (final (step ev st))
  end.

(** ** Scenarios *)

(** Ann claims the admin role. *)
Definition ann_admin : list Event :=
  [connection "a"; packet "a" (In.join_room "Ann" (Some "teach123"))].

(** Ann is the admin and Bo a student. *)
Definition ann_and_bo : list Event :=
  ann_admin ++ [connection "b"; packet "b" (In.join_room "Bo" None)].

(** Ann is the admin, Bo and Cy are students, and Bo is in the call under
    the handle ["pb"]. *)
Definition bo_in_call : list Event :=
  ann_and_bo ++
  [connection "c"; packet "c" (In.join_room "Cy" None);
   packet "b" (In.peer_ready "pb")].

(** Bo and Cy are both in the call, under different handles. *)
Definition two_in_call : list Event :=
  bo_in_call ++ [packet "c" (In.peer_ready "pc")].

(** Cy announces the handle Bo already holds. *)
Definition handle_taken_twice : list Event :=
  bo_in_call ++ [packet "c" (In.peer_ready "pb")].

(** Bo joined and his connection dropped. *)
Definition bo_gone : list Event := ann_and_bo ++ [transport_close "b"].

(** Bo and Ann write within the same millisecond. *)
Definition same_millisecond : list Event :=
  ann_and_bo ++
  [packet "b" (In.chat_message "hi" 1730000000000 "2024-10-27T03:33:20.000Z");
   packet "a"
     (In.chat_message "hello" 1730000000000 "2024-10-27T03:33:20.000Z")].

(** ** Further properties of states and messages *)

(** No connected socket has an id that is one of [prototype_names]. *)
Definition ids_generated (st : State) : Prop :=
  ∀ s, s ∈ sockets st → s ∉ prototype_names.

(** [appState.admin] is set and no entry has role ['admin']. *)
Definition ownerless_locked (st : State) : Prop :=
  truthy (admin st) = true
  ∧ ∀ sid u, users st !! sid = Some u → role u = Student.

(** The events whose listeners start with a lookup of the sender's entry
    and do nothing else without one. *)
Definition needs_entry (e : In.t) : Prop :=
  match e with
  | In.join_room _ _ | In.set_admin _ | In.leave_session => False
  | _ => True
  end.

(** The chat log a [join_success] carries. *)
Definition snapshot_chat (m : Out.t) : option (list ChatMessage) :=
  match m with
  | Out.join_success _ _ ch _ _ => Some ch
  | _ => None
  end.

(** In a state the event loop reaches, an entry is marked as in the call
    exactly when it holds a handle. *)
Definition call_flag_matches (st : State) : Prop :=
  ∀ sid u, users st !! sid = Some u →
           inVideoCall u = bool_decide (is_Some (peerId u)).

(** ** The HTTP endpoints and the CORS origin checks of [server.js] *)

(** The body of [GET /health]. *)
Record Health := mkHealth {
  h_status : string;
  h_users : nat;
  h_admin : string
}.

(** The body of [GET /state]. *)
Record StateReport := mkReport {
  userCount : nat;
  hasAdmin : bool;
  chatMessages : nat;
  r_drawingEnabled : bool
}.

(** [app.get('/health', ...)] *)
Definition get_health (st : State) : Health :=
  mkHealth "OK" (size (users st))
    (if truthy (admin st) then "present" else "none").

(** [app.get('/state', ...)] *)
Definition get_state (st : State) : StateReport :=
  mkReport (size (users st)) (truthy (admin st)) (length (chat st))
    (drawingEnabled st).

(** The environment variables the origin checks read; an unset variable is
    [undefined] ([None]). *)
Record Env := mkEnv {
  NODE_ENV : option string;
  FRONTEND_URL : option string;
  RENDER_EXTERNAL_URL : option string
}.

(** [.filter(Boolean)] on an array of values that are [undefined] or
    strings: the truthy ones stay. *)
Definition filter_Boolean (l : list (option string)) : list string :=
  omap (λ v, if truthy v then v else None) l.

(** [allowedOrigins]: [true] outside production, the configured urls in
    production. *)
Inductive Allowed :=
| AllowAll
| AllowList (l : list string).

Definition allowedOrigins (env : Env) : Allowed :=
  if decide (NODE_ENV env = Some "production")
  then AllowList (filter_Boolean [FRONTEND_URL env; RENDER_EXTERNAL_URL env])
  else AllowAll.

(** What the check hands to its callback: [callback(null, true)] or
    [callback(new Error(...))]. *)
Inductive Verdict :=
| Granted
| Refused (error : string).

(** [!origin || allowed.indexOf(origin) !== -1] *)
Definition origin_passes (origin : option string) (l : list string) : bool :=
  negb (truthy origin)
  || match origin with
     | Some o => bool_decide (o ∈ l)
     | None => false
     end.

(** The [origin] function of the Socket.IO [cors] option. *)
Definition socket_cors_origin (env : Env) (origin : option string) : Verdict :=
  match allowedOrigins env with
  | AllowAll => Granted
  | AllowList l =>
      if bool_decide (length l = 0%nat) then Granted
      else if origin_passes origin l then Granted
      else Refused "Not allowed by CORS"
  end.

(** The [origin] function of the Express [cors] middleware. *)
Definition http_cors_origin (env : Env) (origin : option string) : Verdict :=
  match allowedOrigins env with
  | AllowAll => Granted
  | AllowList l =>
      if bool_decide (length l = 0%nat) then Granted
      else
        if origin_passes origin l then Granted
        else Refused "Not allowed by CORS"
  end.

(** * Accounts: [backend/auth.js]

    The handlers of [/api/auth/register], [/api/auth/login] and
    [/api/auth/profile].  [register], [login], [getProfile] and the three
    storage helpers are embedded on the file storage ([users.json]), the
    branch [auth.js] takes when the Prisma client is not available, and
    with one request handled at a time: the store is the array the file
    holds; reading and writing the file are taken to succeed, so the
    [catch] branches that answer 500 are never entered.  [register_checks]
    and [login_answer] are the parts of [register] and [login] that do not
    depend on the storage: they take what the awaited lookups returned, on
    either branch.  The libraries
    are parameters: the email pattern test, bcrypt and jsonwebtoken.  A
    string is a sequence of one-unit characters, so that [String.length] is
    JavaScript's [length]. *)
Module Auth.

(** An element of [users.json]. *)
Record Account := mkAccount {
  id : string;
  email : string;
  username : string;
  password : string;
  role : string;
  createdAt : string;
  updatedAt : string
}.

(** [req.body] of [register]; a missing field is [undefined]. *)
Record RegisterBody := mkRegister {
  r_email : option string;
  r_username : option string;
  r_password : option string;
  r_role : option string;
  r_adminCode : option string
}.

(** [req.body] of [login]. *)
Record LoginBody := mkLogin {
  l_emailOrUsername : option string;
  l_password : option string
}.

(** The [user] object of a response. *)
Record PublicUser := mkPublic {
  p_id : string;
  p_email : string;
  p_username : string;
  p_role : string;
  p_createdAt : option string
}.

(** The JSON a handler answers. *)
Inductive Body :=
| error (e : string)
| authenticated (message token : string) (user : PublicUser)
| profile (user : PublicUser).

(** [res.status(...).json(...)] *)
Record Response := mkResponse {
  status : nat;
  body : Body
}.

(** What a request takes from outside: the result of [generateId()], the
    rendering of [new Date().toISOString()], the salt bcrypt draws and the
    time jsonwebtoken stamps the token with. *)
Record Entropy := mkEntropy {
  generated_id : string;
  now_iso : string;
  salt : string;
  iat : N
}.

(** What [register] passes on to [bcrypt.hash] and [createUser]: the email,
    the username, the password as sent and the role. *)
Record NewUser := mkNewUser {
  n_email : string;
  n_username : string;
  n_password : string;
  n_role : string
}.

(** The payload of a token: [{ userId, username, role }]. *)
Record Claims := mkClaims {
  c_userId : string;
  c_username : string;
  c_role : string
}.

(** [str.replace(pat, rep)] for a string pattern: the first occurrence. *)
Fixpoint replace_first (pat rep s : string) : string :=
  if String.prefix pat s
  then rep +:+ String.substring (String.length pat)
                 (String.length s - String.length pat) s
  else match s with
       | EmptyString => EmptyString
       | String c s' => String c (replace_first pat rep s')
       end.

(** [users.find(u => u.email === value || u.username === value) || null] *)
Definition findUserByEmailOrUsername (value : string) (users : list Account)
  : option Account :=
  list_find (λ u, email u = value ∨ username u = value) users ≫= λ r,
  Some r.2.

(** [users.find(u => u.id === id) || null] *)
Definition findUserById (i : string) (users : list Account) : option Account :=
  list_find (λ u, id u = i) users ≫= λ r, Some r.2.

(** The public part of an account, as [register] and [getProfile] answer
    it, and as [login] does (without [createdAt]). *)
Definition public (u : Account) : PublicUser :=
  mkPublic (id u) (email u) (username u) (role u) (Some (createdAt u)).
Definition public_login (u : Account) : PublicUser :=
  mkPublic (id u) (email u) (username u) (role u) None.

Section Handlers.

(** [/^[^\s@]+@[^\s@]+\.[^\s@]+$/.test] *)
Variable emailRegex_test : string → bool.
(** [bcrypt.hash(password, 10)] with the salt it drew, and
    [bcrypt.compare(password, hash)]. *)
Variable bcrypt_hash : string → string → string.
Variable bcrypt_compare : string → string → bool.
(** [jwt.sign(claims, JWT_SECRET, { expiresIn })] at a time, and
    [jwt.verify(token, JWT_SECRET)], [None] when it throws. *)
Variable jwt_sign : Claims → N → string.
Variable jwt_verify : string → option Claims.
(** [process.env.ADMIN_CODE] *)
Variable env_ADMIN_CODE : option string.

(** [process.env.ADMIN_CODE || 'teach123'] *)
Definition ADMIN_CODE : string :=
  match env_ADMIN_CODE with
  | Some c => if truthy env_ADMIN_CODE then c else "teach123"
  | None => "teach123"
  end.

(** ['Role must be either "student" or "admin"'] *)
Definition role_error : string :=
  let q := String (Ascii.ascii_of_nat 34) EmptyString in
  "Role must be either " +:+ q +:+ "student" +:+ q +:+ " or " +:+ q
  +:+ "admin" +:+ q.

(** [createUser] on the file storage: the account appended to the file. *)
Definition createUser (en : Entropy) (em un passwordHash rl : string)
    (users : list Account) : list Account * Account :=
  let user := mkAccount (generated_id en) em un passwordHash rl
                (now_iso en) (now_iso en) in
  (users ++ [user], user).

(** [register] *)
Definition register (en : Entropy) (b : RegisterBody) (users : list Account)
  : list Account * Response :=
  match r_email b, r_username b, r_password b with
  | Some em, Some un, Some pw =>
      if negb (truthy (r_email b)) || negb (truthy (r_username b))
         || negb (truthy (r_password b))
      then (users,
            mkResponse 400 (error "Email, username, and password are required"))
      else if negb (emailRegex_test em)
      then (users, mkResponse 400 (error "Invalid email format"))
      else if bool_decide (String.length pw < 6)%nat
      then (users,
            mkResponse 400 (error "Password must be at least 6 characters"))
      else
        let rl := default "student" (r_role b) in
        if bool_decide (rl ≠ "student" ∧ rl ≠ "admin")
        then (users,
              mkResponse 400 (error role_error))
        else if bool_decide (rl = "admin")
                && (negb (truthy (r_adminCode b))
                    || bool_decide (r_adminCode b ≠ Some ADMIN_CODE))
        then (users, mkResponse 403 (error "Invalid admin code"))
        else
          match
            match findUserByEmailOrUsername em users with
            | Some u => Some u
            | None => findUserByEmailOrUsername un users
            end
          with
          | Some existingUser =>
              if bool_decide (email existingUser = em)
              then (users, mkResponse 409 (error "Email already registered"))
              else (users, mkResponse 409 (error "Username already taken"))
          | None =>
              let r := createUser en em un (bcrypt_hash (salt en) pw) rl users in
              let token :=
                jwt_sign (mkClaims (id r.2) (username r.2) (role r.2)) (iat en)
              in
              (r.1,
               mkResponse 201
                 (authenticated "User registered successfully" token
                    (public r.2)))
          end
  | _, _, _ =>
      (users,
       mkResponse 400 (error "Email, username, and password are required"))
  end.

(** [login] *)
Definition login (en : Entropy) (b : LoginBody) (users : list Account)
  : Response :=
  match l_emailOrUsername b, l_password b with
  | Some v, Some pw =>
      if negb (truthy (l_emailOrUsername b)) || negb (truthy (l_password b))
      then mkResponse 400 (error "Email/username and password are required")
      else
        match findUserByEmailOrUsername v users with
        | None => mkResponse 401 (error "Invalid credentials")
        | Some user =>
            if negb (bcrypt_compare pw (password user))
            then mkResponse 401 (error "Invalid credentials")
            else
              let token :=
                jwt_sign (mkClaims (id user) (username user) (role user))
                  (iat en) in
              mkResponse 200
                (authenticated "Login successful" token (public_login user))
        end
  | _, _ => mkResponse 400 (error "Email/username and password are required")
  end.

(** [verifyToken]: the response it ends the request with, or the claims
    it puts in [req.user] before [next()]. *)
Definition verifyToken (authorization : option string) : Response + Claims :=
  let token := replace_first "Bearer " "" <$> authorization in
  if negb (truthy token) then inl (mkResponse 401 (error "No token provided"))
  else
    match token ≫= jwt_verify with
    | Some decoded => inr decoded
    | None => inl (mkResponse 401 (error "Invalid or expired token"))
    end.

(** [getProfile] *)
Definition getProfile (user : Claims) (users : list Account) : Response :=
  match findUserById (c_userId user) users with
  | None => mkResponse 404 (error "User not found")
  | Some u => mkResponse 200 (profile (public u))
  end.

(** [app.get('/api/auth/profile', verifyToken, getProfile)] *)
Definition profile_route (authorization : option string)
    (users : list Account) : Response :=
  match verifyToken authorization with
  | inl r => r
  | inr decoded => getProfile decoded users
  end.

(** [register] on either storage branch, up to the point where it goes on
    to [bcrypt.hash] and to create the user: the response it ends with, or
    the user it goes on to create.  [existingUser] is what the awaited
    lookup returned: [await findUserByEmailOrUsername(email) ||
    await findUserByEmailOrUsername(username)], or the one
    [prisma.user.findFirst] on the email or the username. *)
Definition register_checks (b : RegisterBody)
    (existingUser : option Account) : Response + NewUser :=
  match r_email b, r_username b, r_password b with
  | Some em, Some un, Some pw =>
      if negb (truthy (r_email b)) || negb (truthy (r_username b))
         || negb (truthy (r_password b))
      then inl (mkResponse 400
                  (error "Email, username, and password are required"))
      else if negb (emailRegex_test em)
      then inl (mkResponse 400 (error "Invalid email format"))
      else if bool_decide (String.length pw < 6)%nat
      then inl (mkResponse 400
                  (error "Password must be at least 6 characters"))
      else
        let rl := default "student" (r_role b) in
        if bool_decide (rl ≠ "student" ∧ rl ≠ "admin")
        then inl (mkResponse 400 (error role_error))
        else if bool_decide (rl = "admin")
                && (negb (truthy (r_adminCode b))
                    || bool_decide (r_adminCode b ≠ Some ADMIN_CODE))
        then inl (mkResponse 403 (error "Invalid admin code"))
        else
          match existingUser with
          | Some existingUser =>
              if bool_decide (email existingUser = em)
              then inl (mkResponse 409 (error "Email already registered"))
              else inl (mkResponse 409 (error "Username already taken"))
          | None => inr (mkNewUser em un pw rl)
          end
  | _, _, _ =>
      inl (mkResponse 400 (error "Email, username, and password are required"))
  end.

(** [login] on either storage branch, once the awaited lookup of
    [emailOrUsername] returned [found] (the lookup is not made when a field
    is missing). *)
Definition login_answer (en : Entropy) (b : LoginBody)
    (found : option Account) : Response :=
  match l_emailOrUsername b, l_password b with
  | Some v, Some pw =>
      if negb (truthy (l_emailOrUsername b)) || negb (truthy (l_password b))
      then mkResponse 400 (error "Email/username and password are required")
      else
        match found with
        | None => mkResponse 401 (error "Invalid credentials")
        | Some user =>
            if negb (bcrypt_compare pw (password user))
            then mkResponse 401 (error "Invalid credentials")
            else
              let token :=
                jwt_sign (mkClaims (id user) (username user) (role user))
                  (iat en) in
              mkResponse 200
                (authenticated "Login successful" token (public_login user))
        end
  | _, _ => mkResponse 400 (error "Email/username and password are required")
  end.

End Handlers.

(** No identifier (email or username) of an account is an identifier of
    another account of the store. *)
Definition idents_apart (users : list Account) : Prop :=
  ∀ i j u v, users !! i = Some u → users !! j = Some v → i ≠ j →
    email u ≠ email v ∧ username u ≠ username v ∧ email u ≠ username v.

End Auth.

(** ** Account scenarios *)

(** Stand-ins for the libraries, for the scenarios below: every email
    passes, the hash is the salted password, a password is accepted when
    the hash is its salting by ["s"], and the only token is ["tok"], for
    the account ["u1"]. *)
Definition toy_hash (salt pw : string) : string := salt +:+ "$" +:+ pw.
Definition toy_compare (pw hash : string) : bool :=
  bool_decide (hash = toy_hash "s" pw).
Definition toy_sign (c : Auth.Claims) (t : N) : string := "tok".
Definition toy_verify (t : string) : option Auth.Claims :=
  if bool_decide (t = "tok") then Some (Auth.mkClaims "u1" "ann" "student")
  else None.

Definition ann_registers : Auth.Entropy * Auth.RegisterBody :=
  (Auth.mkEntropy "u1" "2024-10-27T03:33:20.000Z" "s" 1730000000,
   Auth.mkRegister (Some "ann@example.org") (Some "ann") (Some "secret1")
     None None).

Definition ann_account : Auth.Account :=
  Auth.mkAccount "u1" "ann@example.org" "ann" "s$secret1" "student"
    "2024-10-27T03:33:20.000Z" "2024-10-27T03:33:20.000Z".

(** ** Invariants of the event loop *)

(** The cases of a lookup that ends on [Object.prototype]. *)
Ltac inherited_cases :=
  match goal with
  | |- context [inherited ?t ?st] =>
      let v := fresh "v" in
      destruct (inherited t st) as [v|]; [|try done];
      destruct (truthy_inherited v); [|try done];
      destruct v; simpl; try done
  end.

Section Preservation.

Variable st : State.
Hypothesis Hinv : inv st.

Lemma truthy_admin sid u :
  users st !! sid = Some u → role u = Admin → truthy (admin st) = true.
Proof.
  intros Hu Hr. pose proof (inv_admin st Hinv sid u Hu Hr) as Ha.
  pose proof (inv_truthy st Hinv) as Ht. rewrite Ha in Ht |- *.
  simpl. apply bool_decide_eq_true. congruence.
Qed.

Lemma claim_no_admin u sid :
  negb (truthy (admin st)) = true → users st !! sid = Some u →
  role u ≠ Admin.
Proof.
  intros Hc Hu Hr. rewrite (truthy_admin sid u Hu Hr) in Hc. discriminate.
Qed.

Lemma connected_nonempty sid : sid ∈ sockets st → sid ≠ "".
Proof. intros Hs ->. exact (inv_ids st Hinv Hs). Qed.

Lemma inv_join_room sid nm code :
  sid ∈ sockets st → inv (on_join_room sid nm code st).1.
Proof.
  intros Hs. pose proof (connected_nonempty sid Hs) as Hne.
  destruct Hinv as [Hi Hr Hu Ht Ha]. unfold on_join_room.
  destruct (bool_decide (code = Some (adminCode st))
            && negb (truthy (admin st))) eqn:Hc; simpl.
  - apply andb_true_iff in Hc as [_ Hc].
    split; simpl; try done.
    + set_solver.
    + rewrite dom_insert_L. set_solver.
    + congruence.
    + intros s u Hl Hro. destruct (decide (sid = s)) as [->|Hn]; [done|].
      rewrite lookup_insert_ne in Hl by done.
      by destruct (claim_no_admin u s Hc Hl).
  - split; simpl; try done.
    + set_solver.
    + rewrite dom_insert_L. set_solver.
    + intros s u Hl Hro. destruct (decide (sid = s)) as [->|Hn].
      * rewrite lookup_insert_eq in Hl. by simplify_eq.
      * rewrite lookup_insert_ne in Hl by done. eauto.
Qed.

Lemma inv_set_admin sid code :
  sid ∈ sockets st → inv (final (on_set_admin sid code st)).
Proof.
  intros Hs. pose proof (connected_nonempty sid Hs) as Hne.
  unfold on_set_admin.
  destruct (bool_decide (code = Some (adminCode st))
            && negb (truthy (admin st))) eqn:Hc; simpl; [|done].
  apply andb_true_iff in Hc as [_ Hc].
  destruct Hinv as [Hi Hr Hu Ht Ha].
  destruct (users st !! sid) as [u|] eqn:Hl; simpl.
  - split; simpl; try done.
    + rewrite dom_insert_L. apply elem_of_dom_2 in Hl. set_solver.
    + congruence.
    + intros s v Hv Hro. destruct (decide (sid = s)) as [->|Hn]; [done|].
      rewrite lookup_insert_ne in Hv by done.
      by destruct (claim_no_admin v s Hc Hv).
  - split; simpl; try done.
    + congruence.
    + intros s v Hv Hro. by destruct (claim_no_admin v s Hc Hv).
Qed.

(** Rewriting an existing entry without touching its role. *)
Lemma inv_update sid u v :
  users st !! sid = Some u → role v = role u →
  inv (set_users (<[sid := v]> (users st)) st).
Proof.
  intros Hl Hro. destruct Hinv as [Hi Hr Hu Ht Ha].
  split; simpl; try done.
  - rewrite dom_insert_L. apply elem_of_dom_2 in Hl. set_solver.
  - intros s w Hw Hrw. destruct (decide (sid = s)) as [->|Hn].
    + rewrite lookup_insert_eq in Hw. simplify_eq. apply (Ha s u); congruence.
    + rewrite lookup_insert_ne in Hw by done. eauto.
Qed.

Lemma inv_delete sid : inv (set_users (delete sid (users st)) st).
Proof.
  destruct Hinv as [Hi Hr Hu Ht Ha]. split; simpl; try done.
  - rewrite dom_delete_L. set_solver.
  - intros s w Hw Hrw. apply lookup_delete_Some in Hw as [_ Hw]. eauto.
Qed.

Lemma inv_reset : inv (reset_app_state st).
Proof.
  destruct Hinv as [Hi Hr Hu Ht Ha]. by split.
Qed.

Lemma inv_set_timers ts : inv (set_timers ts st).
Proof. by destruct Hinv; split. Qed.

Lemma inv_set_drawingEnabled b : inv (set_drawingEnabled b st).
Proof. by destruct Hinv; split. Qed.

Lemma inv_set_chat c : inv (set_chat c st).
Proof. by destruct Hinv; split. Qed.

Lemma inv_assign_canDraw v cd : inv (assign_canDraw v cd st).
Proof. destruct v; simpl; try done. by destruct Hinv; split. Qed.

Lemma inv_peer_ready sid p : inv (on_peer_ready sid p st).1.
Proof.
  unfold on_peer_ready. destruct (users st !! sid) as [u|] eqn:Hl; [|done].
  destruct (decide _); [done|]. simpl. by apply (inv_update sid u).
Qed.

Lemma inv_peer_left sid p : inv (on_peer_left sid p st).1.
Proof.
  unfold on_peer_left. destruct (users st !! sid) as [u|] eqn:Hl; [|done].
  destruct (decide _); [|done]. simpl. by apply (inv_update sid u).
Qed.

Lemma inv_peer_joined sid p un ur : inv (on_peer_joined sid p un ur st).1.
Proof.
  unfold on_peer_joined. destruct (users st !! sid) as [u|] eqn:Hl; [|done].
  simpl. by apply (inv_update sid u).
Qed.

Lemma inv_stream_status sid b : inv (on_stream_status sid b st).1.
Proof.
  unfold on_stream_status. destruct (users st !! sid) as [u|] eqn:Hl; [|done].
  simpl. by apply (inv_update sid u).
Qed.

Lemma inv_chat_message sid m now iso : inv (on_chat_message sid m now iso st).1.
Proof.
  unfold on_chat_message. destruct (users st !! sid); [|done].
  apply inv_set_chat.
Qed.

Lemma inv_delete_message sid mid : inv (on_delete_message sid mid st).1.
Proof.
  unfold on_delete_message. destruct (is_admin sid st); [|done].
  apply inv_set_chat.
Qed.

Lemma inv_draw_data sid d : inv (on_draw_data sid d st).1.
Proof.
  unfold on_draw_data. destruct (users st !! sid); [|done].
  by destruct (may_draw _ _).
Qed.

Lemma inv_clear_canvas sid : inv (on_clear_canvas sid st).1.
Proof. unfold on_clear_canvas. by destruct (is_admin sid st). Qed.

Lemma inv_toggle_draw sid b : inv (on_toggle_draw sid b st).1.
Proof.
  unfold on_toggle_draw. destruct (is_admin sid st); [|done].
  apply inv_set_drawingEnabled.
Qed.

Lemma inv_set_user_draw sid t b : inv (on_set_user_draw sid t b st).1.
Proof.
  unfold on_set_user_draw. destruct (is_admin sid st); [|done].
  destruct (users st !! t) as [u|] eqn:Hl.
  - simpl. by apply (inv_update t u).
  - destruct (inherited t st) as [v|]; [|done].
    destruct (truthy_inherited v); [|done]. apply inv_assign_canDraw.
Qed.

Lemma inv_kick_user sid t : inv (on_kick_user sid t st).1.
Proof.
  unfold on_kick_user. destruct (is_admin sid st); [|done].
  destruct (decide _); [apply inv_set_timers|].
  destruct (users st !! t); [apply inv_delete|].
  destruct (inherited t st) as [v|]; [|done].
  by destruct (truthy_inherited v).
Qed.

End Preservation.

Lemma inv_leave_room st sid :
  inv st → users st !! sid = None →
  inv (set_sockets (sockets st ∖ {[sid]})
         (set_classroom (classroom st ∖ {[sid]}) st)).
Proof.
  intros [Hi Hr Hu Ht Ha] Hl. split; simpl; try done.
  - set_solver.
  - set_solver.
  - apply not_elem_of_dom in Hl. set_solver.
Qed.

(** Closing a socket: the entry of the socket goes with it, either
    deleted or with all the others. *)
Lemma inv_close_socket st sid : inv st → inv (close_socket sid st).1.
Proof.
  intros Hinv. unfold close_socket. destruct (decide _) as [Hs|]; [|done].
  unfold on_disconnect. simpl.
  destruct (users st !! sid) as [u|] eqn:Hl; simpl.
  - destruct Hinv as [Hi Hr Hu Ht Ha]. destruct (role u) eqn:Hro; simpl.
    + split; simpl; try done.
      * set_solver.
      * set_solver.
      * rewrite dom_delete_L. set_solver.
      * intros s w Hw Hrw. apply lookup_delete_Some in Hw as [_ Hw]. eauto.
    + split; simpl; try done; set_solver.
  - by apply inv_leave_room.
Qed.

Lemma inv_leave_session st sid : inv st → inv (on_leave_session sid st).1.
Proof.
  intros Hinv. unfold on_leave_session. simpl. apply inv_close_socket.
  destruct (users st !! sid) as [u|]; [|done].
  destruct (role u); simpl; [by apply inv_delete | by apply inv_reset].
Qed.

Lemma inv_handle st sid e :
  inv st → sid ∈ sockets st → inv (final (handle sid e st)).
Proof.
  intros Hinv Hs.
  destruct e as [nm code|code|p|p|p un ur| |m now iso|mid|d| |b|t b|t|b];
    unfold handle, returned; cbn [final];
    eauto using inv_join_room, inv_set_admin, inv_peer_ready, inv_peer_left,
      inv_peer_joined, inv_leave_session, inv_chat_message,
      inv_delete_message, inv_draw_data, inv_clear_canvas, inv_toggle_draw,
      inv_set_user_draw, inv_kick_user, inv_stream_status.
Qed.

Lemma inv_step st ev : inv st → inv (final (step ev st)).
Proof.
  intros Hinv. destruct ev as [sid|sid e|sid|]; simpl.
  - destruct (decide _) as [[Hne Hs]|]; [|done].
    destruct Hinv as [Hi Hr Hu Ht Ha]. split; simpl; try done; set_solver.
  - destruct (decide _); [by apply inv_handle | done].
  - by apply inv_close_socket.
  - destruct (timers st) as [|t ts] eqn:Hts; [done|]. simpl.
    apply inv_close_socket. by apply inv_set_timers.
Qed.

Lemma inv_appState : inv appState.
Proof. split; simpl; try done. Qed.

Lemma inv_run_from evs : ∀ st, inv st → inv (run evs st).
Proof.
  induction evs as [|ev evs IH]; intros st Hinv; simpl; [done|].
  apply IH. by apply inv_step.
Qed.

Lemma inv_run evs : inv (run evs appState).
Proof. apply inv_run_from, inv_appState. Qed.

Lemma inv_one_owner st : inv st → at_most_one_owner st.
Proof.
  intros Hinv a b ua ub Ha Hra Hb Hrb.
  pose proof (inv_admin st Hinv a ua Ha Hra) as E1.
  pose proof (inv_admin st Hinv b ub Hb Hrb) as E2. congruence.
Qed.

(** The role [join_room] gives when an admin is in the room. *)
Lemma join_room_taken st sid nm code :
  inv st → owner_exists st →
  ∃ out, on_join_room sid nm code st =
    (set_classroom ({[sid]} ∪ classroom st)
       (set_users (<[sid := mkUser nm Student false true false None]>
                     (users st)) st),
     out)
  ∧ ∃ m ch d, (rcpt <$> out) !! 0%nat = Some {[sid]}
      ∧ (msg <$> out) !! 0%nat = Some (Out.join_success Student m ch d false).
Proof.
  intros Hinv (a & ua & Ha & Hra). unfold on_join_room.
  rewrite (truthy_admin st Hinv a ua Ha Hra), andb_false_r. simpl.
  eexists; split; [reflexivity|]. simpl. eauto.
Qed.

(** ** The single admin *)

Lemma ann_admin_owner : owner_exists (run ann_admin appState).
Proof. exists "a", (mkUser "Ann" Admin false true false None). by vm_compute. Qed.

(** C1. After every sequence of events (connections, joins, [set_admin]
    requests, leaves, disconnects, kicks and all the others) at most one
    entry of [appState.users] has role ['admin']; and a [join_room] that
    presents the right admin code while such an entry exists stores an entry
    with role ['student'] for the joiner and answers [join_success] with
    role ['student']. *)
Theorem single_owner (evs : list Event) :
  at_most_one_owner (run evs appState) ∧
  ∀ sid nm,
    owner_exists (run evs appState) →
    let st := run evs appState in
    let r := on_join_room sid nm (Some (adminCode st)) st in
    (∃ u, users r.1 !! sid = Some u ∧ role u = Student)
    ∧ (∃ m ch d, head (msg <$> r.2) = Some (Out.join_success Student m ch d false))
    ∧ at_most_one_owner r.1.
Proof.
  pose proof (inv_run evs) as Hinv. split; [by apply inv_one_owner|].
  intros sid nm Hown st r.
  destruct (join_room_taken st sid nm (Some (adminCode st)) Hinv Hown)
    as (out & Hr & m & ch & d & _ & Hm).
  subst r. rewrite Hr. simpl. split; [|split].
  - eexists. rewrite lookup_insert_eq. eauto.
  - exists m, ch, d. destruct out; [done|]. simpl in *. congruence.
  - intros a b ua ub Ha Hra Hb Hrb.
    assert (∀ x ux, <[sid:=mkUser nm Student false true false None]>
                      (users st) !! x = Some ux → role ux = Admin →
                    users st !! x = Some ux) as Hold.
    { intros x ux Hx Hrx. destruct (decide (sid = x)) as [->|Hn].
      - rewrite lookup_insert_eq in Hx. by simplify_eq.
      - by rewrite lookup_insert_ne in Hx. }
    eapply (inv_one_owner st Hinv); eauto.
Qed.

Lemma single_owner_witness :
  owner_exists (run ann_admin appState) ∧
  let st := run ann_admin appState in
  let r := on_join_room "b" "Bo" (Some (adminCode st)) st in
  (∃ u, users r.1 !! "b" = Some u ∧ role u = Student)
  ∧ (∃ m ch d, head (msg <$> r.2) = Some (Out.join_success Student m ch d false))
  ∧ at_most_one_owner r.1.
Proof.
  split; [exact ann_admin_owner|].
  exact (proj2 (single_owner ann_admin) "b" "Bo" ann_admin_owner).
Defined.

(** ** The cascading reset *)

Lemma on_disconnect_admin st sid u :
  users st !! sid = Some u → role u = Admin →
  on_disconnect sid st =
    (reset_app_state st,
     peer_notice sid u st ++
     [io_to_classroom st (Out.session_ended "Admin left the session")]).
Proof. intros Hl Hr. unfold on_disconnect. by rewrite Hl, Hr. Qed.

Lemma on_disconnect_student st sid u :
  users st !! sid = Some u → role u = Student →
  on_disconnect sid st =
    (set_users (delete sid (users st)) st,
     peer_notice sid u st ++
     [socket_to_classroom sid st (Out.user_left sid)]).
Proof. intros Hl Hr. unfold on_disconnect. by rewrite Hl, Hr. Qed.

Lemma on_disconnect_absent st sid :
  users st !! sid = None → on_disconnect sid st = (st, []).
Proof. intros Hl. unfold on_disconnect. by rewrite Hl. Qed.

Lemma close_socket_connected st sid :
  sid ∈ sockets st → close_socket sid st = on_disconnect sid (detached sid st).
Proof. intros Hs. unfold close_socket. by rewrite decide_True. Qed.

Lemma joined_in_room st sid u :
  inv st → users st !! sid = Some u → sid ∈ classroom st.
Proof. intros Hinv Hl. apply (inv_users st Hinv). by apply elem_of_dom_2 in Hl. Qed.

Lemma joined_connected st sid u :
  inv st → users st !! sid = Some u → sid ∈ sockets st.
Proof.
  intros Hinv Hl. apply (inv_room st Hinv). by apply (joined_in_room st sid u).
Qed.

(** C2. In every state the event loop reaches, when the socket of an entry
    with role ['admin'] closes (its transport drops) or sends
    [leave_session], every other socket that has an entry in
    [appState.users] is delivered [session_ended], and afterwards
    [appState.users] is empty, [appState.chat] is empty,
    [appState.drawingEnabled] is [true] and [appState.admin] is [null]. *)
Theorem owner_termination (evs : list Event) (sid : string) (u : User)
    (ev : Event) :
  let st := run evs appState in
  users st !! sid = Some u → role u = Admin →
  ev = transport_close sid ∨ ev = packet sid In.leave_session →
  (∀ r, r ≠ sid → is_Some (users st !! r) →
        receives r (Out.session_ended "Admin left the session")
          (emitted (step ev st)))
  ∧ fully_reset (final (step ev st)).
Proof.
  intros st Hl Hr Hev. pose proof (inv_run evs) as Hinv. fold st in Hinv.
  pose proof (joined_connected st sid u Hinv Hl) as Hs.
  assert (∀ r, r ≠ sid → is_Some (users st !! r) →
               r ∈ classroom st ∖ {[sid]}) as Hroom.
  { intros r Hne [v Hv]. pose proof (joined_in_room st r v Hinv Hv).
    set_solver. }
  destruct Hev as [-> | ->]; simpl.
  - rewrite (close_socket_connected st sid Hs).
    rewrite (on_disconnect_admin (detached sid st) sid u Hl Hr). simpl.
    split; [|done]. intros r Hne Hj.
    eexists. split; [apply elem_of_app; right; apply list_elem_of_singleton;
                     reflexivity|].
    split; [|done]. simpl. by apply Hroom.
  - rewrite decide_True by done. simpl. unfold on_leave_session.
    rewrite Hl, Hr. simpl.
    rewrite (close_socket_connected _ sid) by done.
    rewrite on_disconnect_absent by done. simpl.
    split; [|done]. intros r Hne Hj.
    eexists. split; [apply list_elem_of_here|].
    split; [|done]. simpl. pose proof (Hroom r Hne Hj). set_solver.
Qed.

Lemma owner_termination_witness :
  let st := run ann_and_bo appState in
  users st !! "a" = Some (mkUser "Ann" Admin false true false None)
  ∧ (∀ r, r ≠ "a" → is_Some (users st !! r) →
          receives r (Out.session_ended "Admin left the session")
            (emitted (step (transport_close "a") st)))
  ∧ fully_reset (final (step (transport_close "a") st)).
Proof.
  split; [by vm_compute|].
  apply (owner_termination ann_and_bo "a"
           (mkUser "Ann" Admin false true false None) (transport_close "a"));
    [by vm_compute | reflexivity | by left].
Defined.

(** ** The whiteboard relay *)

Lemma may_draw_spec u st : may_draw u st = true ↔ draw_authorized u st.
Proof.
  unfold may_draw, draw_authorized.
  rewrite orb_true_iff, andb_true_iff, bool_decide_eq_true. tauto.
Qed.

(** C3. In every state the event loop reaches, for a socket [sid] with an
    entry [u] in [appState.users] and every [draw_data] it sends: when [u]
    is the admin, or drawing is enabled and [u.canDraw] holds, the state is
    unchanged and the one message emitted is the payload with [sid] as
    [userId], delivered to the room without [sid], hence to every other
    socket with an entry and not to [sid]; and in every other case nothing
    is emitted and the state is unchanged.  So the payload is forwarded if
    and only if the condition holds; the admin is forwarded whatever the two
    flags are, and a student whose [canDraw] is [false] never is. *)
Theorem draw_event_relay (evs : list Event) (sid data : string) (u : User) :
  let st := run evs appState in
  let r := on_draw_data sid data st in
  users st !! sid = Some u →
  (draw_authorized u st →
     r = (st, [mkEmit (classroom st ∖ {[sid]}) (Out.draw_data data sid)])
     ∧ (∀ q, q ≠ sid → is_Some (users st !! q) →
             receives q (Out.draw_data data sid) r.2)
     ∧ ¬ (∃ m, receives sid m r.2))
  ∧ (¬ draw_authorized u st → r = (st, []))
  ∧ ((∃ q, receives q (Out.draw_data data sid) r.2) → draw_authorized u st)
  ∧ (role u = Admin →
       r = (st, [mkEmit (classroom st ∖ {[sid]}) (Out.draw_data data sid)]))
  ∧ (role u = Student → canDraw u = false → r = (st, []))
  ∧ step (packet sid (In.draw_data data)) st = Done r.1 r.2.
Proof.
  intros st r Hl. pose proof (inv_run evs) as Hinv. fold st in Hinv.
  assert (draw_authorized u st →
          r = (st, [mkEmit (classroom st ∖ {[sid]}) (Out.draw_data data sid)]))
    as Hyes.
  { intros Ha. apply may_draw_spec in Ha. subst r. unfold on_draw_data.
    by rewrite Hl, Ha. }
  assert (¬ draw_authorized u st → r = (st, [])) as Hno.
  { intros Ha. rewrite <- may_draw_spec in Ha. apply not_true_is_false in Ha.
    subst r. unfold on_draw_data. by rewrite Hl, Ha. }
  split; [|split; [done|split; [|split; [|split]]]].
  - intros Ha. rewrite (Hyes Ha). simpl. split; [done|split].
    + intros q Hne [v Hv]. pose proof (joined_in_room st q v Hinv Hv).
      eexists. split; [apply list_elem_of_here|]. simpl. set_solver.
    + intros (m & e & He & Hin & _). apply list_elem_of_singleton in He.
      subst e. simpl in Hin. set_solver.
  - intros (q & e & He & _). destruct (decide (may_draw u st = true)) as [Hm|Hm].
    + by apply may_draw_spec.
    + rewrite may_draw_spec in Hm. rewrite (Hno Hm) in He. simpl in He.
      by apply not_elem_of_nil in He.
  - intros Hr. apply Hyes. by left.
  - intros Hr Hc. apply Hno. intros [Ha | [_ Ha]]; congruence.
  - simpl. by rewrite decide_True by (by eapply joined_connected).
Qed.

Lemma draw_event_relay_witness :
  let st := run ann_and_bo appState in
  let r := on_draw_data "b" "stroke" st in
  let u := mkUser "Bo" Student false true false None in
  users st !! "b" = Some u
  ∧ (draw_authorized u st →
       r = (st, [mkEmit (classroom st ∖ {["b"]}) (Out.draw_data "stroke" "b")])
       ∧ (∀ q, q ≠ "b" → is_Some (users st !! q) →
               receives q (Out.draw_data "stroke" "b") r.2)
       ∧ ¬ (∃ m, receives "b" m r.2))
  ∧ (¬ draw_authorized u st → r = (st, []))
  ∧ ((∃ q, receives q (Out.draw_data "stroke" "b") r.2) → draw_authorized u st)
  ∧ (role u = Admin →
       r = (st, [mkEmit (classroom st ∖ {["b"]}) (Out.draw_data "stroke" "b")]))
  ∧ (role u = Student → canDraw u = false → r = (st, []))
  ∧ step (packet "b" (In.draw_data "stroke")) st = Done r.1 r.2.
Proof.
  split; [by vm_compute|].
  apply (draw_event_relay ann_and_bo "b" "stroke"
           (mkUser "Bo" Student false true false None)).
  by vm_compute.
Defined.

(** ** Admin-only events *)

Lemma is_admin_false st sid :
  (∀ u, users st !! sid = Some u → role u ≠ Admin) → is_admin sid st = false.
Proof.
  intros H. unfold is_admin. destruct (users st !! sid) as [u|]; [|done].
  apply bool_decide_eq_false. by apply H.
Qed.

(** C4. When a socket whose entry does not have role ['admin'] (or that has
    no entry) sends [delete_message], [clear_canvas], [toggle_draw],
    [set_user_draw] or [kick_user], the listener returns with the state
    (users, chat, flags, admin, pending timers) unchanged and nothing
    emitted. *)
Theorem owner_only_denied (st : State) (sid : string) (e : In.t) :
  (∀ u, users st !! sid = Some u → role u ≠ Admin) →
  owner_only e →
  handle sid e st = Done st [].
Proof.
  intros Hna Ho. pose proof (is_admin_false st sid Hna) as Hf.
  destruct e as [nm code|code|p|p|p un ur| |m now iso|mid|d| |b|t b|t|b];
    try done; simpl; unfold returned.
  - unfold on_delete_message. by rewrite Hf.
  - unfold on_clear_canvas. by rewrite Hf.
  - unfold on_toggle_draw. by rewrite Hf.
  - unfold on_set_user_draw. by rewrite Hf.
  - unfold on_kick_user. by rewrite Hf.
Qed.

Lemma owner_only_denied_witness :
  let st := run ann_and_bo appState in
  handle "b" (In.kick_user "a") st = Done st []
  ∧ handle "b" (In.toggle_draw false) st = Done st []
  ∧ handle "b" (In.set_user_draw "a" false) st = Done st []
  ∧ handle "b" In.clear_canvas st = Done st []
  ∧ handle "b" (In.delete_message "1") st = Done st [].
Proof.
  assert (∀ u, users (run ann_and_bo appState) !! "b" = Some u →
               role u ≠ Admin) as Hb.
  { intros u Hu. vm_compute in Hu. by simplify_eq. }
  cbv zeta.
  split; [exact (owner_only_denied _ "b" (In.kick_user "a") Hb I)|].
  split; [exact (owner_only_denied _ "b" (In.toggle_draw false) Hb I)|].
  split; [exact (owner_only_denied _ "b" (In.set_user_draw "a" false) Hb I)|].
  split; [exact (owner_only_denied _ "b" In.clear_canvas Hb I)|].
  exact (owner_only_denied _ "b" (In.delete_message "1") Hb I).
Defined.

(** ** The signalling relay *)

(** C7. When the entry of socket [sid] already holds [peerId] [h], a
    further [peer_ready] with [h] from [sid] returns at once: the state is
    unchanged and nothing is emitted, neither [peers_in_room] to the caller
    nor [peer_joined] to the others. *)
Theorem peer_ready_idempotent (st : State) (sid h : string) (u : User) :
  users st !! sid = Some u → peerId u = Some h →
  on_peer_ready sid h st = (st, [])
  ∧ handle sid (In.peer_ready h) st = Done st [].
Proof.
  intros Hl Hp.
  assert (on_peer_ready sid h st = (st, [])) as E.
  { unfold on_peer_ready. rewrite Hl. by rewrite decide_True. }
  split; [done|]. simpl. by rewrite E.
Qed.

Lemma peer_ready_idempotent_witness :
  let st := run bo_in_call appState in
  users st !! "b" = Some (mkUser "Bo" Student false true true (Some "pb"))
  ∧ on_peer_ready "b" "pb" st = (st, [])
  ∧ handle "b" (In.peer_ready "pb") st = Done st [].
Proof.
  split; [by vm_compute|].
  apply (peer_ready_idempotent (run bo_in_call appState) "b" "pb"
           (mkUser "Bo" Student false true true (Some "pb")));
    [by vm_compute | reflexivity].
Defined.

(** The ['disconnect'] listener names no handle but the one the entry
    holds. *)
Lemma on_disconnect_other_handle (st : State) (sid h : string) (u : User)
    (e : Emission) :
  users st !! sid = Some u → peerId u ≠ Some h →
  e ∈ (on_disconnect sid st).2 → msg e ≠ Out.peer_left h.
Proof.
  intros Hl Hp. unfold on_disconnect. rewrite Hl.
  assert (∀ e', e' ∈ peer_notice sid u st → msg e' ≠ Out.peer_left h) as Hn.
  { unfold peer_notice. destruct (peerId u) as [p|] eqn:Hpu.
    - destruct (truthy (Some p)).
      + intros e' ->%list_elem_of_singleton. simpl. congruence.
      + by intros e' ?%not_elem_of_nil.
    - by intros e' ?%not_elem_of_nil. }
  fold (peer_notice sid u st).
  destruct (role u); simpl; intros [He | ->%list_elem_of_singleton]%elem_of_app;
    auto; done.
Qed.

(** C10. When the entry of socket [sid] holds [peerId] [h1] and [sid] sends
    [peer_ready] with another handle [h2], the entry now holds [h2] (and
    nothing else of the state changes), the caller is answered
    [peers_in_room], the room without the caller is sent [peer_joined] for
    [h2], and no [peer_left] is emitted, for [h1] or any other handle.  Nor
    is [h1] retracted later: a [peer_left] for [h1] from [sid] is now
    ignored, and when the socket closes no [peer_left] for [h1] is sent. *)
Theorem peer_ready_replaces (st : State) (sid h1 h2 : string) (u : User) :
  users st !! sid = Some u → peerId u = Some h1 → h1 ≠ h2 →
  let r := on_peer_ready sid h2 st in
  r.1 = set_users (<[sid := set_peer true (Some h2) u]> (users st)) st
  ∧ (peerId <$> users r.1 !! sid) = Some (Some h2)
  ∧ r.2 = [mkEmit {[sid]} (Out.peers_in_room (peers_of sid h2 (users r.1)));
           mkEmit (classroom st ∖ {[sid]})
             (Out.peer_joined h2 (name u) (role_str (role u)))]
  ∧ (∀ e p, e ∈ r.2 → msg e ≠ Out.peer_left p)
  ∧ on_peer_left sid h1 r.1 = (r.1, [])
  ∧ (∀ e, e ∈ (close_socket sid r.1).2 → msg e ≠ Out.peer_left h1).
Proof.
  intros Hl Hp Hne r. subst r. unfold on_peer_ready. rewrite Hl.
  rewrite decide_False by congruence. simpl.
  split; [done|]. split; [by rewrite lookup_insert_eq|]. split; [done|].
  split; [|split].
  - intros e p He. apply elem_of_cons in He as [-> | He]; [done|].
    apply list_elem_of_singleton in He as ->. done.
  - unfold on_peer_left. simpl. rewrite lookup_insert_eq. simpl.
    rewrite decide_False; [done | congruence].
  - intros e. unfold close_socket. destruct (decide _); [|by intros ?%not_elem_of_nil].
    apply (on_disconnect_other_handle _ sid h1 (set_peer true (Some h2) u)).
    + simpl. by rewrite lookup_insert_eq.
    + simpl. congruence.
Qed.

Lemma peer_ready_replaces_witness :
  let st := run bo_in_call appState in
  let u := mkUser "Bo" Student false true true (Some "pb") in
  let r := on_peer_ready "b" "pb2" st in
  users st !! "b" = Some u
  ∧ r.1 = set_users (<["b" := set_peer true (Some "pb2") u]> (users st)) st
  ∧ (peerId <$> users r.1 !! "b") = Some (Some "pb2")
  ∧ r.2 = [mkEmit {["b"]} (Out.peers_in_room (peers_of "b" "pb2" (users r.1)));
           mkEmit (classroom st ∖ {["b"]})
             (Out.peer_joined "pb2" (name u) (role_str (role u)))]
  ∧ (∀ e p, e ∈ r.2 → msg e ≠ Out.peer_left p)
  ∧ on_peer_left "b" "pb" r.1 = (r.1, [])
  ∧ (∀ e, e ∈ (close_socket "b" r.1).2 → msg e ≠ Out.peer_left "pb").
Proof.
  split; [by vm_compute|].
  apply (peer_ready_replaces (run bo_in_call appState) "b" "pb" "pb2"
           (mkUser "Bo" Student false true true (Some "pb")));
    [by vm_compute | reflexivity | discriminate].
Defined.

(** ** Operations on a target that is gone *)

(** A key that is none of [prototype_names] finds nothing on
    [Object.prototype]. *)
Lemma inherited_none (key : string) (st : State) :
  key ∉ prototype_names → inherited key st = None.
Proof.
  intros Hk. unfold inherited, prototype_names in *.
  rewrite !not_elem_of_cons in Hk. destruct Hk as (H1 & H2 & H3).
  by rewrite !decide_False.
Qed.

(** On an id that has neither a socket nor an entry and that is not
    inherited, [kick_user] and [set_user_draw] do nothing, whoever sends
    them. *)
Lemma absent_target_silent (st : State) (sid target : string) (b : bool) :
  users st !! target = None → target ∉ sockets st →
  target ∉ prototype_names →
  handle sid (In.kick_user target) st = Done st []
  ∧ handle sid (In.set_user_draw target b) st = Done st [].
Proof.
  intros Hl Hs Hp. unfold handle, returned, on_kick_user, on_set_user_draw.
  rewrite Hl, (inherited_none target st Hp), decide_False by done.
  by destruct (is_admin sid st).
Qed.

Lemma silent_no_clean_up (target : string) (st : State) :
  ¬ cleans_up target (Done st []).
Proof. intros (_ & e & He & _). by apply not_elem_of_nil in He. Qed.

(** C6, as stated, fails: once Bo's socket is gone, the admin's [kick_user]
    and [set_user_draw] on Bo's id return without emitting anything. *)
Lemma vanished_target_silent :
  let st := run bo_gone appState in
  is_admin "a" st = true ∧ ("b" ∉ sockets st)
  ∧ ¬ cleans_up "b" (handle "a" (In.kick_user "b") st)
  ∧ ¬ cleans_up "b" (handle "a" (In.set_user_draw "b" false) st).
Proof.
  intros st.
  assert (is_admin "a" st = true) as Ha by (vm_compute; reflexivity).
  assert (users st !! "b" = None) as Hl by (vm_compute; reflexivity).
  assert ("b" ∉ sockets st) as Hs by (by vm_compute).
  assert ("b" ∉ prototype_names) as Hp by compute_done.
  clearbody st.
  destruct (absent_target_silent st "a" "b" false Hl Hs Hp) as [-> ->].
  auto using silent_no_clean_up.
Qed.

(** In a state the event loop reaches, an id without a live socket has no
    entry in [appState.users]. *)
Lemma vanished_no_entry (evs : list Event) (target : string) :
  target ∉ sockets (run evs appState) →
  users (run evs appState) !! target = None.
Proof.
  intros Hs. pose proof (inv_run evs) as Hinv.
  destruct (users (run evs appState) !! target) as [u|] eqn:Hl; [|done].
  destruct Hs. by apply (joined_connected _ target u).
Qed.

(** C6, amended. In every state the event loop reaches, an id without a
    live socket has no entry left in [appState.users]; and when the id is
    not a property name that objects inherit, the admin's [kick_user] and
    [set_user_draw] on it return with the state unchanged and nothing
    emitted. *)
Theorem vanished_target (evs : list Event) (sid target : string) (b : bool) :
  let st := run evs appState in
  is_admin sid st = true → target ∉ sockets st →
  target ∉ prototype_names →
  users st !! target = None
  ∧ handle sid (In.kick_user target) st = Done st []
  ∧ handle sid (In.set_user_draw target b) st = Done st [].
Proof.
  intros st Ha Hs Hp.
  pose proof (vanished_no_entry evs target Hs) as Hl. fold st in Hl.
  split; [done|]. by apply absent_target_silent.
Qed.

Lemma vanished_target_witness :
  let st := run bo_gone appState in
  is_admin "a" st = true ∧ ("b" ∉ sockets st) ∧ ("b" ∉ prototype_names)
  ∧ users st !! "b" = None
  ∧ handle "a" (In.kick_user "b") st = Done st []
  ∧ handle "a" (In.set_user_draw "b" false) st = Done st [].
Proof.
  assert (is_admin "a" (run bo_gone appState) = true) as Ha
    by (vm_compute; reflexivity).
  assert ("b" ∉ sockets (run bo_gone appState)) as Hs by (by vm_compute).
  assert ("b" ∉ prototype_names) as Hp by compute_done.
  split; [exact Ha|]. split; [exact Hs|]. split; [exact Hp|].
  exact (vanished_target bo_gone "a" "b" false Ha Hs Hp).
Defined.

(** ** Uniqueness of peer handles *)

(** C8, as stated, fails: [peer_ready] stores whatever handle it is given,
    so after Bo and Cy both announce ["pb"] two entries hold it. *)
Lemma peer_handle_shared :
  ¬ peer_handles_unique (run handle_taken_twice appState).
Proof.
  intros H.
  assert ("b" = "c") as E; [|discriminate E].
  apply (H "b" "c" "pb").
  - exists (mkUser "Bo" Student false true true (Some "pb")). by vm_compute.
  - exists (mkUser "Cy" Student false true true (Some "pb")). by vm_compute.
Qed.

Lemma unique_mono st st' :
  (∀ x p, registered (users st') x p → registered (users st) x p) →
  peer_handles_unique st → peer_handles_unique st'.
Proof. intros Hsub Hu a b p Ha Hb. apply (Hu a b p); by apply Hsub. Qed.

Lemma registered_delete m sid x p :
  registered (delete sid m) x p → registered m x p.
Proof.
  intros (u & Hl & Hp). apply lookup_delete_Some in Hl as [_ Hl].
  by exists u.
Qed.

Lemma registered_empty x p : ¬ registered ∅ x p.
Proof. intros (u & Hl & _). by rewrite lookup_empty in Hl. Qed.

(** Storing an entry that holds no handle, or the handle the entry held
    before, registers nothing new. *)
Lemma registered_insert_old m sid v x p :
  peerId v = None ∨ (∃ u, m !! sid = Some u ∧ peerId v = peerId u) →
  registered (<[sid := v]> m) x p → registered m x p.
Proof.
  intros Hv (w & Hl & Hp). destruct (decide (sid = x)) as [->|Hn].
  - rewrite lookup_insert_eq in Hl. simplify_eq.
    destruct Hv as [Hv | (u & Hu & Hv)]; [congruence|].
    exists u. split; [done | congruence].
  - rewrite lookup_insert_ne in Hl by done. by exists w.
Qed.

(** Storing a handle that no other entry holds keeps the handles apart. *)
Lemma unique_insert_free st sid v p :
  peerId v = Some p →
  (∀ b, registered (users st) b p → b = sid) →
  peer_handles_unique st →
  peer_handles_unique (set_users (<[sid := v]> (users st)) st).
Proof.
  intros Hv Hfree Hu a b q (ua & Ha & Hpa) (ub & Hb & Hpb). simpl in *.
  destruct (decide (sid = a)) as [<-|Hna], (decide (sid = b)) as [<-|Hnb];
    try done.
  - rewrite lookup_insert_eq in Ha. rewrite lookup_insert_ne in Hb by done.
    simplify_eq. symmetry. apply Hfree. exists ub. split; congruence.
  - rewrite lookup_insert_eq in Hb. rewrite lookup_insert_ne in Ha by done.
    simplify_eq. apply Hfree. exists ua. split; congruence.
  - rewrite lookup_insert_ne in Ha, Hb by done.
    apply (Hu a b q); [by exists ua | by exists ub].
Qed.

Ltac registered_old :=
  match goal with
  | |- peer_handles_unique _ → peer_handles_unique _ =>
      apply unique_mono; simpl; intros ? ?;
      first [ done
            | by intros ?%registered_empty
            | apply registered_delete
            | apply registered_insert_old; simpl; eauto ]
  end.

Lemma unique_close_socket st sid :
  peer_handles_unique st → peer_handles_unique (close_socket sid st).1.
Proof.
  unfold close_socket. destruct (decide _); [|done].
  unfold on_disconnect. simpl. destruct (users st !! sid) as [u|]; [|done].
  destruct (role u); simpl; registered_old.
Qed.

Lemma unique_handle st sid e :
  presents_free_handle (packet sid e) st →
  peer_handles_unique st → peer_handles_unique (final (handle sid e st)).
Proof.
  intros Hfree.
  destruct e as [nm code|code|p|p|p un ur| |m now iso|mid|d| |b|t b|t|b];
    unfold handle, returned; cbn [final]; simpl in Hfree.
  - unfold on_join_room. destruct (_ && _); simpl; registered_old.
  - unfold on_set_admin. destruct (_ && _); [|done]. simpl.
    destruct (users st !! sid) as [u|] eqn:Hl; simpl; registered_old.
  - unfold on_peer_ready. destruct (users st !! sid) as [u|]; [|done].
    destruct (decide _); [done|]. simpl. by apply (unique_insert_free _ _ _ p).
  - unfold on_peer_left. destruct (users st !! sid) as [u|]; [|done].
    destruct (decide _); [|done]. simpl. registered_old.
  - unfold on_peer_joined. destruct (users st !! sid) as [u|]; [|done].
    simpl. by apply (unique_insert_free _ _ _ p).
  - unfold on_leave_session. simpl. intros Hu. apply unique_close_socket.
    revert Hu. destruct (users st !! sid) as [u|]; [|done].
    destruct (role u); simpl; registered_old.
  - unfold on_chat_message. destruct (users st !! sid); [|done]. registered_old.
  - unfold on_delete_message. destruct (is_admin _ _); [|done]. registered_old.
  - unfold on_draw_data. destruct (users st !! sid); [|done].
    by destruct (may_draw _ _).
  - unfold on_clear_canvas. by destruct (is_admin _ _).
  - unfold on_toggle_draw. destruct (is_admin _ _); [|done]. registered_old.
  - unfold on_set_user_draw. destruct (is_admin _ _); [|done].
    destruct (users st !! t) as [u|] eqn:Hl; [|inherited_cases].
    simpl. registered_old.
  - unfold on_kick_user. destruct (is_admin _ _); [|done].
    destruct (decide _); [registered_old|].
    destruct (users st !! t); [|inherited_cases]. simpl. registered_old.
  - unfold on_stream_status. destruct (users st !! sid) as [u|] eqn:Hl; [|done].
    simpl. registered_old.
Qed.

Lemma unique_step st ev :
  presents_free_handle ev st →
  peer_handles_unique st → peer_handles_unique (final (step ev st)).
Proof.
  intros Hfree Hu. destruct ev as [sid|sid e|sid|]; simpl.
  - by destruct (decide _).
  - destruct (decide _); [by apply unique_handle | done].
  - by apply unique_close_socket.
  - destruct (timers st) as [|t ts]; [done|]. simpl.
    by apply unique_close_socket.
Qed.

Lemma unique_run_from evs :
  ∀ st, peer_handles_unique st → handles_free evs st →
        peer_handles_unique (run evs st).
Proof.
  induction evs as [|ev evs IH]; intros st Hu Hf; simpl; [done|].
  destruct Hf as [Hf1 Hf2]. apply IH; [by apply unique_step | done].
Qed.

(** C8, amended. After every sequence of events in which each [peer_ready]
    and [peer_joined] presents a handle that no entry other than the
    sender's holds at that moment, no two entries of [appState.users] hold
    the same [peerId].  The relay itself accepts any handle. *)
Theorem peer_handles_unique_when_free (evs : list Event) :
  handles_free evs appState → peer_handles_unique (run evs appState).
Proof.
  apply unique_run_from. intros a b p Ha. by apply registered_empty in Ha.
Qed.

Lemma registered_listed m x p :
  registered m x p →
  (x, Some p) ∈ (λ e : string * User, (e.1, peerId e.2)) <$> map_to_list m.
Proof.
  intros (u & Hl & Hp). apply list_elem_of_fmap. exists (x, u).
  split; [by rewrite <- Hp | by apply elem_of_map_to_list].
Qed.

Lemma peer_handles_unique_when_free_witness :
  handles_free two_in_call appState
  ∧ peer_handles_unique (run two_in_call appState).
Proof.
  assert (handles_free two_in_call appState) as Hf.
  { repeat (split; [exact I|]).
    split; [|split; [|exact I]]; intros b Hb%registered_listed;
      vm_compute in Hb; set_solver. }
  split; [exact Hf | exact (peer_handles_unique_when_free two_in_call Hf)].
Defined.

(** ** Termination and the signalling relay *)

Lemma peer_notice_registered sid u st p :
  peerId u = Some p → p ≠ "" →
  peer_notice sid u st = [mkEmit (classroom st ∖ {[sid]}) (Out.peer_left p)].
Proof.
  intros Hp Hne. unfold peer_notice. rewrite Hp. simpl.
  by rewrite bool_decide_eq_true_2.
Qed.

(** When the socket of an entry that holds a handle closes, [peer_left]
    for the handle goes to the rest of the room first, and one more message
    follows: [user_left] for a student, [session_ended] for the admin. *)
Lemma close_socket_peer_left_first (st : State) (sid p : string) (u : User) :
  inv st → users st !! sid = Some u → peerId u = Some p → p ≠ "" →
  ∃ e, (close_socket sid st).2 =
         [mkEmit (classroom st ∖ {[sid]}) (Out.peer_left p); e]
       ∧ msg e = match role u with
                 | Admin => Out.session_ended "Admin left the session"
                 | Student => Out.user_left sid
                 end.
Proof.
  intros Hinv Hl Hp Hne.
  rewrite (close_socket_connected st sid (joined_connected st sid u Hinv Hl)).
  assert (classroom (detached sid st) ∖ {[sid]} = classroom st ∖ {[sid]}) as Hc.
  { simpl. set_solver. }
  destruct (role u) eqn:Hr.
  - rewrite (on_disconnect_student (detached sid st) sid u Hl Hr).
    rewrite (peer_notice_registered sid u _ p Hp Hne), Hc. simpl. eauto.
  - rewrite (on_disconnect_admin (detached sid st) sid u Hl Hr).
    rewrite (peer_notice_registered sid u _ p Hp Hne), Hc. simpl. eauto.
Qed.

(** So it is when the transport of the socket closes and when the timer of
    a kick disconnects it, in every state the event loop reaches. *)
Lemma disconnect_peer_left_first (evs : list Event) (sid p : string)
    (u : User) (ev : Event) :
  let st := run evs appState in
  users st !! sid = Some u → peerId u = Some p → p ≠ "" →
  ev = transport_close sid ∨ (ev = timeout ∧ head (timers st) = Some sid) →
  ∃ e, emitted (step ev st) =
         [mkEmit (classroom st ∖ {[sid]}) (Out.peer_left p); e]
       ∧ msg e = match role u with
                 | Admin => Out.session_ended "Admin left the session"
                 | Student => Out.user_left sid
                 end.
Proof.
  intros st Hl Hp Hne Hev. pose proof (inv_run evs) as Hinv. fold st in Hinv.
  destruct Hev as [-> | [-> Hhd]]; simpl.
  - by apply close_socket_peer_left_first.
  - destruct (timers st) as [|t ts] eqn:Hts; [done|]. simpl in Hhd.
    simplify_eq. simpl.
    apply (close_socket_peer_left_first (set_timers ts st) sid p u);
      [by apply inv_set_timers | done..].
Qed.

(** The admin's [kick_user] on a live socket tells the target and queues
    the timer that will disconnect it. *)
Lemma kick_user_live (st : State) (sid target : string) :
  is_admin sid st = true → target ∈ sockets st →
  on_kick_user sid target st =
    (set_timers (timers st ++ [target]) st,
     [mkEmit {[target]} (Out.kicked "Removed by admin")]).
Proof.
  intros Ha Hs. unfold on_kick_user. by rewrite Ha, decide_True.
Qed.

(** [leave_session] never emits [peer_left]: it removes the entry before
    [socket.disconnect()] runs the ['disconnect'] listener, which then
    finds no entry and returns. *)
Lemma leave_session_no_peer_left (st : State) (sid p : string) (e : Emission) :
  e ∈ (on_leave_session sid st).2 → msg e ≠ Out.peer_left p.
Proof.
  unfold on_leave_session.
  set (r1 := match users st !! sid with Some _ => _ | None => _ end).
  assert (users r1.1 !! sid = None ∧ ∀ e, e ∈ r1.2 → msg e ≠ Out.peer_left p)
    as [Hgone Hout].
  { subst r1. destruct (users st !! sid) as [u|] eqn:Hl.
    - destruct (role u); simpl.
      + split; [by rewrite lookup_delete_eq|].
        by intros e' ->%list_elem_of_singleton.
      + split; [done|]. by intros e' ->%list_elem_of_singleton.
    - split; [done|]. by intros e' ?%not_elem_of_nil. }
  assert ((close_socket sid r1.1).2 = []) as Hclose.
  { unfold close_socket. destruct (decide _); [|done].
    by rewrite on_disconnect_absent. }
  simpl. rewrite Hclose, app_nil_r. apply Hout.
Qed.

(** C9 fails on [leave_session]. Bo holds the handle ["pb"]. When his
    transport closes the room hears [peer_left] and then [user_left]; when
    he sends [leave_session] it hears [user_left] only. *)
Theorem leave_session_skips_peer_left :
  (peerId <$> users (run bo_in_call appState) !! "b") = Some (Some "pb")
  ∧ msg <$> last_out bo_in_call (transport_close "b")
    = [Out.peer_left "pb"; Out.user_left "b"]
  ∧ msg <$> last_out bo_in_call (packet "b" In.leave_session)
    = [Out.user_left "b"].
Proof. by vm_compute. Qed.

(** ** The chat log *)

(** [chat_message] appends at the end of the log and keeps what was there;
    the ids stay distinct when the clock reading is not the id of a message
    of the log. *)
Lemma chat_message_appends (st : State) (sid m iso : string) (now : N)
    (u : User) :
  users st !! sid = Some u →
  chat (on_chat_message sid m now iso st).1
    = chat st ++ [mkChat (pretty now) sid (name u) m iso (role u)]
  ∧ (chat_ids_unique st → pretty now ∉ cm_id <$> chat st →
     chat_ids_unique (on_chat_message sid m now iso st).1).
Proof.
  intros Hl. unfold on_chat_message. rewrite Hl. simpl. split; [done|].
  intros Hu Hfresh. unfold chat_ids_unique. simpl. rewrite fmap_app.
  apply NoDup_app. split; [done|]. split; [|apply NoDup_singleton].
  intros x Hx ->%list_elem_of_singleton. done.
Qed.

(** C5 fails when two messages arrive within one millisecond: both get
    [Date.now().toString()] of that millisecond as their id.  The log keeps
    the order of arrival. *)
Theorem chat_id_collision :
  (λ m, (cm_id m, cm_message m)) <$> chat (run same_millisecond appState)
    = [("1730000000000", "hi"); ("1730000000000", "hello")]
  ∧ ¬ chat_ids_unique (run same_millisecond appState).
Proof.
  split; [by vm_compute|]. unfold chat_ids_unique.
  replace (cm_id <$> chat (run same_millisecond appState))
    with ["1730000000000"; "1730000000000"] by (by vm_compute).
  intros [Hn _]%NoDup_cons. apply Hn. apply list_elem_of_here.
Qed.

Lemma chat_ids_close_socket st sid :
  chat_ids_unique st → chat_ids_unique (close_socket sid st).1.
Proof.
  unfold close_socket. destruct (decide _); [|done].
  unfold on_disconnect. simpl. destruct (users st !! sid) as [u|]; [|done].
  destruct (role u); [done|]. intros _. apply NoDup_nil_2.
Qed.

Lemma chat_ids_handle st sid e :
  clock_fresh (packet sid e) st →
  chat_ids_unique st → chat_ids_unique (final (handle sid e st)).
Proof.
  intros Hfresh.
  destruct e as [nm code|code|p|p|p un ur| |m now iso|mid|d| |b|t b|t|b];
    unfold handle, returned; cbn [final]; simpl in Hfresh.
  - unfold on_join_room. by destruct (_ && _).
  - unfold on_set_admin. destruct (_ && _); [|done]. simpl.
    by destruct (users st !! sid).
  - unfold on_peer_ready. destruct (users st !! sid); [|done].
    by destruct (decide _).
  - unfold on_peer_left. destruct (users st !! sid); [|done].
    by destruct (decide _).
  - unfold on_peer_joined. by destruct (users st !! sid).
  - unfold on_leave_session. simpl. intros Hu. apply chat_ids_close_socket.
    destruct (users st !! sid) as [u|]; [|done].
    destruct (role u); [done|]. apply NoDup_nil_2.
  - destruct (users st !! sid) as [u|] eqn:Hl.
    + intros Hu. by apply (chat_message_appends st sid m iso now u Hl).
    + unfold on_chat_message. by rewrite Hl.
  - unfold on_delete_message. destruct (is_admin _ _); [|done].
    unfold chat_ids_unique. simpl. intros Hu.
    eapply sublist_NoDup; [exact Hu|].
    apply fmap_sublist, sublist_filter.
  - unfold on_draw_data. destruct (users st !! sid); [|done].
    by destruct (may_draw _ _).
  - unfold on_clear_canvas. by destruct (is_admin _ _).
  - unfold on_toggle_draw. by destruct (is_admin _ _).
  - unfold on_set_user_draw. destruct (is_admin _ _); [|done].
    destruct (users st !! t); [done | inherited_cases].
  - unfold on_kick_user. destruct (is_admin _ _); [|done].
    destruct (decide _); [done|].
    destruct (users st !! t); [done | inherited_cases].
  - unfold on_stream_status. by destruct (users st !! sid).
Qed.

(** As long as no clock reading repeats the id of a message still in the
    log, the ids of the log stay distinct. *)
Lemma chat_ids_unique_when_clock_ticks (evs : list Event) :
  ∀ st, chat_ids_unique st → clock_ticks evs st →
        chat_ids_unique (run evs st).
Proof.
  induction evs as [|ev evs IH]; intros st Hu Hf; simpl; [done|].
  destruct Hf as [Hf1 Hf2]. apply IH; [|done].
  destruct ev as [sid|sid e|sid|]; simpl.
  - by destruct (decide _).
  - destruct (decide _); [by apply chat_ids_handle | done].
  - by apply chat_ids_close_socket.
  - destruct (timers st) as [|t ts]; [done|]. simpl.
    by apply chat_ids_close_socket.
Qed.

(** ** The ids of the connected sockets *)

Lemma sockets_close_socket st sid :
  sockets (close_socket sid st).1 ⊆ sockets st.
Proof.
  unfold close_socket. destruct (decide _); [|done].
  unfold on_disconnect. simpl. destruct (users st !! sid) as [u|];
    [|simpl; set_solver].
  destruct (role u); simpl; set_solver.
Qed.

Lemma sockets_handle st sid e :
  sockets (final (handle sid e st)) ⊆ sockets st.
Proof.
  destruct e as [nm code|code|p|p|p un ur| |m now iso|mid|d| |b|t b|t|b];
    unfold handle, returned; cbn [final].
  - unfold on_join_room. by destruct (_ && _).
  - unfold on_set_admin. destruct (_ && _); [|done]. simpl.
    by destruct (users st !! sid).
  - unfold on_peer_ready. destruct (users st !! sid); [|done].
    by destruct (decide _).
  - unfold on_peer_left. destruct (users st !! sid); [|done].
    by destruct (decide _).
  - unfold on_peer_joined. by destruct (users st !! sid).
  - unfold on_leave_session. simpl.
    etrans; [apply sockets_close_socket|].
    destruct (users st !! sid) as [u|]; [|done]. by destruct (role u).
  - unfold on_chat_message. by destruct (users st !! sid).
  - unfold on_delete_message. by destruct (is_admin _ _).
  - unfold on_draw_data. destruct (users st !! sid); [|done].
    by destruct (may_draw _ _).
  - unfold on_clear_canvas. by destruct (is_admin _ _).
  - unfold on_toggle_draw. by destruct (is_admin _ _).
  - unfold on_set_user_draw. destruct (is_admin _ _); [|done].
    destruct (users st !! t); [done | inherited_cases].
  - unfold on_kick_user. destruct (is_admin _ _); [|done].
    destruct (decide _); [done|].
    destruct (users st !! t); [done | inherited_cases].
  - unfold on_stream_status. by destruct (users st !! sid).
Qed.

(** In every state the event loop reaches, no connected socket, and so no
    entry of [appState.users], is under one of [prototype_names]. *)
Lemma ids_generated_run (evs : list Event) : ids_generated (run evs appState).
Proof.
  assert (∀ st, ids_generated st → ids_generated (run evs st)) as H.
  { induction evs as [|ev evs IH]; intros st Hg; simpl; [done|].
    apply IH. intros s Hs. destruct ev as [sid|sid e|sid|]; simpl in Hs.
    - destruct (decide _) as [(_ & Hp & _)|]; [|by apply Hg].
      simpl in Hs. apply elem_of_union in Hs as [->%elem_of_singleton | Hs];
        [done | by apply Hg].
    - destruct (decide _); [|by apply Hg].
      by apply Hg, (sockets_handle st sid e).
    - by apply Hg, (sockets_close_socket st sid).
    - destruct (timers st) as [|t ts]; [by apply Hg|]. simpl in Hs.
      apply (sockets_close_socket _ t) in Hs. by apply Hg. }
  apply H. intros s Hs. simpl in Hs. set_solver.
Qed.

(** ** A room that lost its admin *)

Section Locked.

Variable st : State.
Hypothesis Hlock : ownerless_locked st.

Lemma locked_update sid u v :
  users st !! sid = Some u → role v = role u →
  ownerless_locked (set_users (<[sid := v]> (users st)) st).
Proof.
  destruct Hlock as [Ht Hs]. intros Hl Hr. split; [done|]. simpl.
  intros x w Hw. destruct (decide (sid = x)) as [->|Hn].
  - rewrite lookup_insert_eq in Hw. simplify_eq. rewrite Hr. eauto.
  - rewrite lookup_insert_ne in Hw by done. eauto.
Qed.

Lemma locked_delete sid :
  ownerless_locked (set_users (delete sid (users st)) st).
Proof.
  destruct Hlock as [Ht Hs]. split; [done|]. simpl.
  intros x w Hw. apply lookup_delete_Some in Hw as [_ Hw]. eauto.
Qed.

Lemma locked_not_admin sid : is_admin sid st = false.
Proof.
  destruct Hlock as [Ht Hs]. apply is_admin_false.
  intros u Hu. rewrite (Hs sid u Hu). discriminate.
Qed.

End Locked.

Lemma locked_close_socket st sid :
  ownerless_locked st → ownerless_locked (close_socket sid st).1.
Proof.
  intros [Ht Hs]. unfold close_socket. destruct (decide _); [|done].
  unfold on_disconnect. simpl.
  destruct (users st !! sid) as [u|] eqn:Hl; [|done].
  rewrite (Hs sid u Hl). simpl. split; [done|]. simpl.
  intros x w Hw. apply lookup_delete_Some in Hw as [_ Hw]. eauto.
Qed.

Lemma locked_handle st sid e :
  ownerless_locked st → ownerless_locked (final (handle sid e st)).
Proof.
  intros Hlock. pose proof (locked_not_admin st Hlock sid) as Hna.
  pose proof Hlock as [Ht Hs].
  destruct e as [nm code|code|p|p|p un ur| |m now iso|mid|d| |b|t b|t|b];
    unfold handle, returned; cbn [final].
  - unfold on_join_room. rewrite Ht, andb_false_r. simpl.
    split; [done|]. simpl. intros x w Hw.
    destruct (decide (sid = x)) as [->|Hn].
    + rewrite lookup_insert_eq in Hw. by simplify_eq.
    + rewrite lookup_insert_ne in Hw by done. eauto.
  - unfold on_set_admin. by rewrite Ht, andb_false_r.
  - unfold on_peer_ready. destruct (users st !! sid) as [u|] eqn:Hl; [|done].
    destruct (decide _); [done|]. by apply (locked_update st Hlock sid u).
  - unfold on_peer_left. destruct (users st !! sid) as [u|] eqn:Hl; [|done].
    destruct (decide _); [|done]. by apply (locked_update st Hlock sid u).
  - unfold on_peer_joined. destruct (users st !! sid) as [u|] eqn:Hl; [|done].
    by apply (locked_update st Hlock sid u).
  - unfold on_leave_session. simpl. apply locked_close_socket.
    destruct (users st !! sid) as [u|] eqn:Hl; [|done].
    rewrite (Hs sid u Hl). by apply locked_delete.
  - unfold on_chat_message. by destruct (users st !! sid).
  - unfold on_delete_message. by rewrite Hna.
  - unfold on_draw_data. destruct (users st !! sid); [|done].
    by destruct (may_draw _ _).
  - unfold on_clear_canvas. by rewrite Hna.
  - unfold on_toggle_draw. by rewrite Hna.
  - unfold on_set_user_draw. by rewrite Hna.
  - unfold on_kick_user. by rewrite Hna.
  - unfold on_stream_status. destruct (users st !! sid) as [u|] eqn:Hl; [|done].
    by apply (locked_update st Hlock sid u).
Qed.

Lemma locked_step st ev :
  ownerless_locked st → ownerless_locked (final (step ev st)).
Proof.
  intros Hlock. destruct ev as [sid|sid e|sid|]; simpl.
  - by destruct (decide _).
  - destruct (decide _); [by apply locked_handle | done].
  - by apply locked_close_socket.
  - destruct (timers st) as [|t ts]; [done|]. simpl.
    by apply locked_close_socket.
Qed.

Lemma locked_run evs :
  ∀ st, ownerless_locked st → ownerless_locked (run evs st).
Proof.
  induction evs as [|ev evs IH]; intros st Hlock; simpl; [done|].
  by apply IH, locked_step.
Qed.

Lemma locked_no_owner st : ownerless_locked st → ¬ owner_exists st.
Proof.
  intros [_ Hs] (a & ua & Ha & Hra). rewrite (Hs a ua Ha) in Hra. discriminate.
Qed.

(** X1. When the admin sends [join_room] again, whatever code it presents,
    its entry is overwritten with role ['student'] while [appState.admin]
    keeps its id; from then on no sequence of events ever produces an entry
    with role ['admin'] again. *)
Theorem admin_rejoin_locks_room (evs evs' : list Event) (sid nm : string)
    (code : option string) (u : User) :
  let st := run evs appState in
  users st !! sid = Some u → role u = Admin →
  let st' := (on_join_room sid nm code st).1 in
  (role <$> users st' !! sid) = Some Student
  ∧ admin st' = Some sid
  ∧ ¬ owner_exists (run evs' st').
Proof.
  intros st Hl Hr st'. pose proof (inv_run evs) as Hinv. fold st in Hinv.
  pose proof (truthy_admin st Hinv sid u Hl Hr) as Ht.
  pose proof (inv_admin st Hinv sid u Hl Hr) as Ha.
  assert (st' = set_classroom ({[sid]} ∪ classroom st)
            (set_users (<[sid := mkUser nm Student false true false None]>
                          (users st)) st)) as ->.
  { subst st'. unfold on_join_room. by rewrite Ht, andb_false_r. }
  simpl. split; [by rewrite lookup_insert_eq|]. split; [done|].
  apply locked_no_owner, locked_run. split; [done|]. simpl.
  intros x w Hw. destruct (decide (sid = x)) as [->|Hn].
  - rewrite lookup_insert_eq in Hw. by simplify_eq.
  - rewrite lookup_insert_ne in Hw by done.
    destruct (role w) eqn:Hrw; [done|].
    pose proof (inv_admin st Hinv x w Hw Hrw). congruence.
Qed.

Lemma admin_rejoin_locks_room_witness :
  let st := run ann_admin appState in
  let st' := (on_join_room "a" "Ann" (Some "teach123") st).1 in
  users st !! "a" = Some (mkUser "Ann" Admin false true false None)
  ∧ (role <$> users st' !! "a") = Some Student
  ∧ admin st' = Some "a"
  ∧ ¬ owner_exists
        (run [connection "b"; packet "b" (In.join_room "Bo" (Some "teach123"))]
           st').
Proof.
  split; [vm_compute; reflexivity|].
  exact (admin_rejoin_locks_room ann_admin
           [connection "b"; packet "b" (In.join_room "Bo" (Some "teach123"))]
           "a" "Ann" (Some "teach123")
           (mkUser "Ann" Admin false true false None)
           ltac:(vm_compute; reflexivity) eq_refl).
Defined.

(** X2. In a state the event loop reaches with no admin, [set_admin] with
    the right code from a connected socket that has not joined throws after
    the assignment of [appState.admin]: nothing is emitted, no entry
    changes, [appState.admin] is the id of that socket, and from then on no
    sequence of events ever produces an entry with role ['admin']. *)
Theorem set_admin_unjoined_locks_room (evs evs' : list Event) (sid : string) :
  let st := run evs appState in
  sid ∈ sockets st → users st !! sid = None → truthy (admin st) = false →
  handle sid (In.set_admin (Some (adminCode st))) st
    = Thrown (set_admin_field (Some sid) st) []
  ∧ ¬ owner_exists (run evs' (set_admin_field (Some sid) st)).
Proof.
  intros st Hs Hl Ht. pose proof (inv_run evs) as Hinv. fold st in Hinv.
  split.
  - simpl. unfold on_set_admin. rewrite Ht, bool_decide_eq_true_2 by done.
    simpl. by rewrite Hl.
  - apply locked_no_owner, locked_run. split; simpl.
    + apply bool_decide_eq_true. by apply (connected_nonempty st Hinv).
    + intros x w Hw. destruct (role w) eqn:Hrw; [done|].
      rewrite (truthy_admin st Hinv x w Hw Hrw) in Ht. discriminate.
Qed.

Lemma set_admin_unjoined_locks_room_witness :
  let st := run [connection "a"] appState in
  "a" ∈ sockets st
  ∧ handle "a" (In.set_admin (Some (adminCode st))) st
      = Thrown (set_admin_field (Some "a") st) []
  ∧ ¬ owner_exists
        (run [packet "a" (In.join_room "Ann" (Some "teach123"))]
           (set_admin_field (Some "a") st)).
Proof.
  assert ("a" ∈ sockets (run [connection "a"] appState)) as Hs
    by (by vm_compute).
  split; [exact Hs|].
  exact (set_admin_unjoined_locks_room [connection "a"]
           [packet "a" (In.join_room "Ann" (Some "teach123"))] "a"
           Hs ltac:(vm_compute; reflexivity) ltac:(vm_compute; reflexivity)).
Defined.

(** ** Sockets without an entry, and what a student can touch *)

(** X3. From a socket that has no entry in [appState.users] (it has not
    joined, or the room was reset), every event other than [join_room],
    [set_admin] and [leave_session] returns with the state unchanged and
    nothing emitted. *)
Theorem unjoined_ignored (st : State) (sid : string) (e : In.t) :
  users st !! sid = None → needs_entry e → handle sid e st = Done st [].
Proof.
  intros Hl He.
  assert (is_admin sid st = false) as Hna by (unfold is_admin; by rewrite Hl).
  destruct e as [nm code|code|p|p|p un ur| |m now iso|mid|d| |b|t b|t|b];
    try done; unfold handle, returned.
  - unfold on_peer_ready. by rewrite Hl.
  - unfold on_peer_left. by rewrite Hl.
  - unfold on_peer_joined. by rewrite Hl.
  - unfold on_chat_message. by rewrite Hl.
  - unfold on_delete_message. by rewrite Hna.
  - unfold on_draw_data. by rewrite Hl.
  - unfold on_clear_canvas. by rewrite Hna.
  - unfold on_toggle_draw. by rewrite Hna.
  - unfold on_set_user_draw. by rewrite Hna.
  - unfold on_kick_user. by rewrite Hna.
  - unfold on_stream_status. by rewrite Hl.
Qed.

Lemma unjoined_ignored_witness :
  let st := run (ann_and_bo ++ [connection "c"]) appState in
  users st !! "c" = None
  ∧ handle "c" (In.chat_message "hi" 1 "t") st = Done st []
  ∧ handle "c" (In.draw_data "stroke") st = Done st []
  ∧ handle "c" (In.peer_ready "pc") st = Done st [].
Proof.
  intros st.
  assert (users st !! "c" = None) as Hl by (vm_compute; reflexivity).
  clearbody st. split; [exact Hl|].
  split; [exact (unjoined_ignored st "c" (In.chat_message "hi" 1 "t") Hl I)|].
  split; [exact (unjoined_ignored st "c" (In.draw_data "stroke") Hl I)|].
  exact (unjoined_ignored st "c" (In.peer_ready "pc") Hl I).
Defined.

Ltac untouched :=
  simpl;
  split; [auto | split; [done | split; [done | split; [reflexivity | auto]]]].

(** X4. An event from a socket whose entry does not have role ['admin'] (or
    that has no entry) never changes the entry of another socket, the
    drawing flag or the pending timers; it never removes a message from the
    chat log; and it leaves [appState.admin] alone unless it sets it to the
    sender's own id. *)
Theorem non_admin_isolation (st : State) (sid : string) (e : In.t) :
  is_admin sid st = false →
  let st' := final (handle sid e st) in
  (∀ x, x ≠ sid → users st' !! x = users st !! x)
  ∧ drawingEnabled st' = drawingEnabled st
  ∧ timers st' = timers st
  ∧ chat st `prefix_of` chat st'
  ∧ (admin st' = admin st ∨ admin st' = Some sid).
Proof.
  intros Hna st'. subst st'.
  assert (∀ v x, x ≠ sid → <[sid := v]> (users st) !! x = users st !! x)
    as Hins.
  { intros v x Hx. by rewrite lookup_insert_ne. }
  assert (∀ x, x ≠ sid → delete sid (users st) !! x = users st !! x) as Hdel.
  { intros x Hx. by rewrite lookup_delete_ne. }
  destruct e as [nm code|code|p|p|p un ur| |m now iso|mid|d| |b|t b|t|b];
    unfold handle, returned; cbn [final].
  - unfold on_join_room. destruct (_ && _); untouched.
  - unfold on_set_admin. destruct (_ && _); [|untouched]. simpl.
    destruct (users st !! sid) as [u|]; untouched.
  - unfold on_peer_ready. destruct (users st !! sid) as [u|]; [|untouched].
    destruct (decide _); untouched.
  - unfold on_peer_left. destruct (users st !! sid) as [u|]; [|untouched].
    destruct (decide _); untouched.
  - unfold on_peer_joined. destruct (users st !! sid) as [u|]; untouched.
  - unfold on_leave_session. simpl.
    set (r1 := match users st !! sid with Some _ => _ | None => _ end).
    assert (r1.1 = set_users (delete sid (users st)) st ∨ r1.1 = st) as Hr1.
    { subst r1. unfold is_admin in Hna.
      destruct (users st !! sid) as [u|]; [|by right].
      apply bool_decide_eq_false in Hna. destruct (role u); [by left|done]. }
    clearbody r1. unfold close_socket.
    destruct (decide _); [|destruct Hr1 as [-> | ->]; untouched].
    unfold on_disconnect.
    destruct Hr1 as [-> | ->]; simpl.
    + rewrite lookup_delete_eq. untouched.
    + unfold is_admin in Hna.
      destruct (users st !! sid) as [u|]; [|untouched].
      apply bool_decide_eq_false in Hna. destruct (role u); [|done].
      untouched.
  - unfold on_chat_message. destruct (users st !! sid) as [u|]; [|untouched].
    simpl. repeat (split; [done|]). split; [by apply prefix_app_r|by left].
  - unfold on_delete_message. rewrite Hna. untouched.
  - unfold on_draw_data. destruct (users st !! sid); [|untouched].
    destruct (may_draw _ _); untouched.
  - unfold on_clear_canvas. rewrite Hna. untouched.
  - unfold on_toggle_draw. rewrite Hna. untouched.
  - unfold on_set_user_draw. rewrite Hna. untouched.
  - unfold on_kick_user. rewrite Hna. untouched.
  - unfold on_stream_status. destruct (users st !! sid) as [u|]; untouched.
Qed.

Lemma non_admin_isolation_witness :
  let st := run bo_in_call appState in
  let st' := final (handle "b" In.leave_session st) in
  is_admin "b" st = false
  ∧ (∀ x, x ≠ "b" → users st' !! x = users st !! x)
  ∧ drawingEnabled st' = drawingEnabled st
  ∧ timers st' = timers st
  ∧ chat st `prefix_of` chat st'
  ∧ (admin st' = admin st ∨ admin st' = Some "b").
Proof.
  intros st.
  assert (is_admin "b" st = false) as Hna by (vm_compute; reflexivity).
  clearbody st. split; [exact Hna|].
  exact (non_admin_isolation st "b" In.leave_session Hna).
Defined.

(** ** Moderating the chat log *)

Lemma on_delete_message_admin st sid mid :
  is_admin sid st = true →
  on_delete_message sid mid st =
    (set_chat (filter (λ m : ChatMessage, cm_id m ≠ mid) (chat st)) st,
     [mkEmit (classroom st) (Out.message_deleted mid)]).
Proof. intros Ha. unfold on_delete_message. by rewrite Ha. Qed.

(** X5. A message sent by a joined socket and then deleted by the admin under
    its id is in no later snapshot: the next [join_success] carries the log
    as it was before the message, without the messages that had the same
    id, in their order. *)
Theorem chat_send_delete_join (st : State) (s a j m iso nm : string) (now : N)
    (code : option string) (u : User) :
  users st !! s = Some u → is_admin a st = true →
  let st1 := (on_chat_message s m now iso st).1 in
  let st2 := (on_delete_message a (pretty now) st1).1 in
  let r := on_join_room j nm code st2 in
  (head r.2 ≫= λ e, snapshot_chat (msg e))
    = Some (filter (λ c : ChatMessage, cm_id c ≠ pretty now) (chat st))
  ∧ chat r.1 = filter (λ c : ChatMessage, cm_id c ≠ pretty now) (chat st)
  ∧ ∀ c, c ∈ chat r.1 → cm_id c ≠ pretty now.
Proof.
  intros Hl Ha st1 st2 r.
  assert (st1 = set_chat
            (chat st ++ [mkChat (pretty now) s (name u) m iso (role u)]) st)
    as E1.
  { subst st1. unfold on_chat_message. by rewrite Hl. }
  assert (chat st2 = filter (λ c : ChatMessage, cm_id c ≠ pretty now) (chat st))
    as E2.
  { subst st2. rewrite on_delete_message_admin by (by rewrite E1).
    rewrite E1. simpl. rewrite filter_app, filter_cons_False, filter_nil.
    - apply app_nil_r.
    - simpl. by intros ?. }
  assert (chat r.1 = chat st2) as E3.
  { subst r. unfold on_join_room. by destruct (_ && _). }
  split; [|split].
  - subst r. unfold on_join_room. simpl. rewrite <- E2.
    by destruct (_ && _).
  - by rewrite E3.
  - rewrite E3, E2. intros c Hc. by apply list_elem_of_filter in Hc as [Hc _].
Qed.

Lemma chat_send_delete_join_witness :
  let st := run ann_and_bo appState in
  let st1 := (on_chat_message "b" "hi" 1730000000000 "t" st).1 in
  let st2 := (on_delete_message "a" (pretty 1730000000000%N) st1).1 in
  let r := on_join_room "c" "Cy" None st2 in
  users st !! "b" = Some (mkUser "Bo" Student false true false None)
  ∧ is_admin "a" st = true
  ∧ (head r.2 ≫= λ e, snapshot_chat (msg e))
    = Some (filter (λ c : ChatMessage, cm_id c ≠ pretty 1730000000000%N)
              (chat st))
  ∧ chat r.1
    = filter (λ c : ChatMessage, cm_id c ≠ pretty 1730000000000%N) (chat st)
  ∧ ∀ c, c ∈ chat r.1 → cm_id c ≠ pretty 1730000000000%N.
Proof.
  intros st.
  assert (users st !! "b" = Some (mkUser "Bo" Student false true false None))
    as Hl by (vm_compute; reflexivity).
  assert (is_admin "a" st = true) as Ha by (vm_compute; reflexivity).
  clearbody st. split; [exact Hl|]. split; [exact Ha|].
  exact (chat_send_delete_join st "b" "a" "c" "hi" "t" "Cy" 1730000000000
           None (mkUser "Bo" Student false true false None) Hl Ha).
Defined.

(** X6. When the admin deletes an id that no message of the log has, the
    state is unchanged and [message_deleted] for that id still goes to the
    whole room. *)
Theorem delete_unknown_message (st : State) (sid mid : string) :
  is_admin sid st = true →
  (∀ c, c ∈ chat st → cm_id c ≠ mid) →
  on_delete_message sid mid st
    = (st, [mkEmit (classroom st) (Out.message_deleted mid)]).
Proof.
  intros Ha Hno. rewrite on_delete_message_admin by done.
  assert (filter (λ m : ChatMessage, cm_id m ≠ mid) (chat st) = chat st) as ->.
  { induction (chat st) as [|c l IH]; [done|].
    rewrite filter_cons_True by (apply Hno; left).
    f_equal. apply IH. intros c' Hc'. apply Hno. by right. }
  by destruct st.
Qed.

Lemma delete_unknown_message_witness :
  let st := run ann_and_bo appState in
  is_admin "a" st = true
  ∧ on_delete_message "a" "42" st
    = (st, [mkEmit (classroom st) (Out.message_deleted "42")]).
Proof.
  intros st.
  assert (is_admin "a" st = true) as Ha by (vm_compute; reflexivity).
  assert (chat st = []) as Hc by (vm_compute; reflexivity).
  clearbody st. split; [exact Ha|].
  apply (delete_unknown_message st "a" "42" Ha).
  intros c Hc'. rewrite Hc in Hc'. by apply not_elem_of_nil in Hc'.
Defined.

(** ** Running the cleanup twice *)

(** X7. The ['disconnect'] listener is idempotent: once it ran for a socket,
    running it again for that socket changes nothing and emits nothing; the
    same holds for closing a socket twice, and for the transport closing
    after the socket sent [leave_session]. *)
Theorem cleanup_runs_once (st : State) (sid : string) :
  on_disconnect sid (on_disconnect sid st).1 = ((on_disconnect sid st).1, [])
  ∧ close_socket sid (close_socket sid st).1 = ((close_socket sid st).1, [])
  ∧ close_socket sid (on_leave_session sid st).1
    = ((on_leave_session sid st).1, []).
Proof.
  assert (∀ st0, users (on_disconnect sid st0).1 !! sid = None) as Hgone.
  { intros st0. unfold on_disconnect.
    destruct (users st0 !! sid) as [u|] eqn:Hl; [|done].
    destruct (role u); simpl; [apply lookup_delete_eq | done]. }
  assert (∀ st0, sid ∉ sockets st0 → close_socket sid st0 = (st0, [])) as Hno.
  { intros st0 Hs. unfold close_socket. by rewrite decide_False. }
  assert (∀ st0, sockets (on_disconnect sid st0).1 = sockets st0) as Hsock.
  { intros st0. unfold on_disconnect. destruct (users st0 !! sid) as [u|];
      [|done]. by destruct (role u). }
  assert (∀ st0, sid ∉ sockets (close_socket sid st0).1) as Hclosed.
  { intros st0. unfold close_socket. destruct (decide _); [|done].
    rewrite Hsock. simpl. set_solver. }
  split; [|split].
  - apply on_disconnect_absent, Hgone.
  - apply Hno, Hclosed.
  - apply Hno. unfold on_leave_session. simpl. apply Hclosed.
Qed.

(** ** Rendezvous *)

(** What [peers_in_room] lists: the entries of the other sockets whose
    handle is truthy and is not the caller's. *)
Lemma elem_of_peers_of (sid p : string) (m : gmap string User) (x : PeerInfo) :
  x ∈ peers_of sid p m ↔
  ∃ id u, m !! id = Some u ∧ id ≠ sid ∧ truthy (peerId u) = true
          ∧ peerId u ≠ Some p ∧ x = mkPeer (peerId u) (name u) (role u).
Proof.
  unfold peers_of. rewrite list_elem_of_fmap. split.
  - intros ([id u] & -> & Hf). apply list_elem_of_filter in Hf as [(? & ? & ?) Hl].
    apply elem_of_map_to_list in Hl. by exists id, u.
  - intros (id & u & Hl & Hne & Ht & Hp & ->). exists (id, u). split; [done|].
    apply list_elem_of_filter. split; [done|]. by apply elem_of_map_to_list.
Qed.

(** X8. In a state the event loop reaches, when socket [b] announces a new
    handle [pb] while the entry of another socket [a] holds a non-empty
    handle [pa] different from [pb]: the answer to [b] lists [a]'s handle
    with [a]'s name and role, [a] is among the sockets told [peer_joined]
    for [pb], and the answer lists neither an entry that holds [pb] nor one
    without a handle. *)
Theorem peer_ready_rendezvous (evs : list Event) (a b pa pb : string)
    (ua ub : User) :
  let st := run evs appState in
  a ≠ b → users st !! a = Some ua → peerId ua = Some pa → pa ≠ "" → pa ≠ pb →
  users st !! b = Some ub → peerId ub ≠ Some pb →
  ∃ peers,
    (on_peer_ready b pb st).2
      = [mkEmit {[b]} (Out.peers_in_room peers);
         mkEmit (classroom st ∖ {[b]})
           (Out.peer_joined pb (name ub) (role_str (role ub)))]
    ∧ mkPeer (Some pa) (name ua) (role ua) ∈ peers
    ∧ a ∈ classroom st ∖ {[b]}
    ∧ ∀ x, x ∈ peers → pi_peerId x ≠ Some pb ∧ pi_peerId x ≠ None.
Proof.
  intros st Hab Ha Hpa Hne Hpp Hb Hpb.
  pose proof (inv_run evs) as Hinv. fold st in Hinv.
  unfold on_peer_ready. rewrite Hb, decide_False by done. simpl.
  eexists. split; [reflexivity|]. split; [|split].
  - apply elem_of_peers_of. exists a, ua.
    rewrite lookup_insert_ne by done. rewrite Hpa. simpl.
    rewrite bool_decide_eq_true_2 by done.
    repeat split; try done. congruence.
  - pose proof (joined_in_room st a ua Hinv Ha). set_solver.
  - intros x (id & u & _ & _ & Ht & Hp & ->)%elem_of_peers_of. simpl.
    split; [done|]. intros Hn. by rewrite Hn in Ht.
Qed.

Lemma peer_ready_rendezvous_witness :
  let st := run bo_in_call appState in
  ∃ peers,
    (on_peer_ready "c" "pc" st).2
      = [mkEmit {["c"]} (Out.peers_in_room peers);
         mkEmit (classroom st ∖ {["c"]})
           (Out.peer_joined "pc" "Cy" "student")]
    ∧ mkPeer (Some "pb") "Bo" Student ∈ peers
    ∧ "b" ∈ classroom st ∖ {["c"]}
    ∧ ∀ x, x ∈ peers → pi_peerId x ≠ Some "pc" ∧ pi_peerId x ≠ None.
Proof.
  exact (peer_ready_rendezvous bo_in_call "b" "c" "pb" "pc"
           (mkUser "Bo" Student false true true (Some "pb"))
           (mkUser "Cy" Student false true false None)
           ltac:(discriminate) ltac:(vm_compute; reflexivity) eq_refl
           ltac:(discriminate) ltac:(discriminate)
           ltac:(vm_compute; reflexivity) ltac:(discriminate)).
Defined.

(** X9. [peer_left] only withdraws the caller's own current handle: with
    any other handle, another socket's included, it changes nothing and
    emits nothing.  With the caller's handle it clears the entry's handle
    and tells the rest of the room; a [peer_ready] with the same handle
    right after is announced again, and brings the entry back to what it
    was when it was in the call. *)
Theorem peer_left_round_trip (st : State) (sid h h' : string) (u : User) :
  users st !! sid = Some u → peerId u = Some h → h' ≠ h →
  on_peer_left sid h' st = (st, [])
  ∧ let r1 := on_peer_left sid h st in
    let r2 := on_peer_ready sid h r1.1 in
    (peerId <$> users r1.1 !! sid) = Some None
    ∧ r1.2 = [mkEmit (classroom st ∖ {[sid]}) (Out.peer_left h)]
    ∧ (∃ peers,
         r2.2 = [mkEmit {[sid]} (Out.peers_in_room peers);
                 mkEmit (classroom st ∖ {[sid]})
                   (Out.peer_joined h (name u) (role_str (role u)))])
    ∧ (inVideoCall u = true → r2.1 = st).
Proof.
  intros Hl Hp Hne. split.
  - unfold on_peer_left. rewrite Hl, decide_False; [done | congruence].
  - unfold on_peer_left. rewrite Hl, decide_True by done. simpl.
    split; [by rewrite lookup_insert_eq|]. split; [done|].
    unfold on_peer_ready. simpl. rewrite lookup_insert_eq. simpl.
    split; [by eexists|].
    intros Hv. rewrite insert_insert_eq.
    assert (set_peer true (Some h) (set_peer false None u) = u) as ->.
    { destruct u; simpl in *. by subst. }
    rewrite insert_id by done. by destruct st.
Qed.

Lemma peer_left_round_trip_witness :
  let st := run bo_in_call appState in
  let u := mkUser "Bo" Student false true true (Some "pb") in
  users st !! "b" = Some u
  ∧ on_peer_left "b" "pc" st = (st, [])
  ∧ let r1 := on_peer_left "b" "pb" st in
    let r2 := on_peer_ready "b" "pb" r1.1 in
    (peerId <$> users r1.1 !! "b") = Some None
    ∧ r1.2 = [mkEmit (classroom st ∖ {["b"]}) (Out.peer_left "pb")]
    ∧ (∃ peers,
         r2.2 = [mkEmit {["b"]} (Out.peers_in_room peers);
                 mkEmit (classroom st ∖ {["b"]})
                   (Out.peer_joined "pb" (name u) (role_str (role u)))])
    ∧ (inVideoCall u = true → r2.1 = st).
Proof.
  intros st u.
  assert (users st !! "b" = Some u) as Hl by (vm_compute; reflexivity).
  clearbody st. split; [exact Hl|].
  exact (peer_left_round_trip st "b" "pb" "pc" u Hl eq_refl ltac:(discriminate)).
Defined.

Lemma call_flag_update st sid v :
  inVideoCall v = bool_decide (is_Some (peerId v)) →
  call_flag_matches st →
  call_flag_matches (set_users (<[sid := v]> (users st)) st).
Proof.
  intros Hv Hc x w Hw. simpl in Hw. destruct (decide (sid = x)) as [->|Hn].
  - rewrite lookup_insert_eq in Hw. by simplify_eq.
  - rewrite lookup_insert_ne in Hw by done. eauto.
Qed.

Lemma call_flag_delete st sid :
  call_flag_matches st →
  call_flag_matches (set_users (delete sid (users st)) st).
Proof.
  intros Hc x w Hw. simpl in Hw. apply lookup_delete_Some in Hw as [_ Hw]. eauto.
Qed.

Lemma call_flag_close_socket st sid :
  call_flag_matches st → call_flag_matches (close_socket sid st).1.
Proof.
  intros Hc. unfold close_socket. destruct (decide _); [|done].
  unfold on_disconnect. simpl. destruct (users st !! sid) as [u|]; [|done].
  destruct (role u); simpl.
  - intros x w Hw. simpl in Hw. apply lookup_delete_Some in Hw as [_ Hw]. eauto.
  - by intros x w Hw.
Qed.

Lemma call_flag_handle st sid e :
  call_flag_matches st → call_flag_matches (final (handle sid e st)).
Proof.
  intros Hc.
  destruct e as [nm code|code|p|p|p un ur| |m now iso|mid|d| |b|t b|t|b];
    unfold handle, returned; cbn [final].
  - unfold on_join_room. destruct (_ && _); simpl;
      intros x w Hw; simpl in Hw;
      (destruct (decide (sid = x)) as [->|Hn];
       [rewrite lookup_insert_eq in Hw; by simplify_eq
       |rewrite lookup_insert_ne in Hw by done; eauto]).
  - unfold on_set_admin. destruct (_ && _); [|done]. simpl.
    destruct (users st !! sid) as [u|] eqn:Hl; simpl; [|done].
    apply (call_flag_update (set_admin_field (Some sid) st)); [|done].
    simpl. eauto.
  - unfold on_peer_ready. destruct (users st !! sid) as [u|] eqn:Hl; [|done].
    destruct (decide _); [done|]. by apply call_flag_update.
  - unfold on_peer_left. destruct (users st !! sid) as [u|] eqn:Hl; [|done].
    destruct (decide _); [|done]. by apply call_flag_update.
  - unfold on_peer_joined. destruct (users st !! sid) as [u|] eqn:Hl; [|done].
    by apply call_flag_update.
  - unfold on_leave_session. simpl. apply call_flag_close_socket.
    destruct (users st !! sid) as [u|]; [|done].
    destruct (role u); simpl; [by apply call_flag_delete | by intros x w Hw].
  - unfold on_chat_message. by destruct (users st !! sid).
  - unfold on_delete_message. by destruct (is_admin _ _).
  - unfold on_draw_data. destruct (users st !! sid); [|done].
    by destruct (may_draw _ _).
  - unfold on_clear_canvas. by destruct (is_admin _ _).
  - unfold on_toggle_draw. by destruct (is_admin _ _).
  - unfold on_set_user_draw. destruct (is_admin _ _); [|done].
    destruct (users st !! t) as [u|] eqn:Hl; [|inherited_cases].
    apply call_flag_update; [|done]. simpl. eauto.
  - unfold on_kick_user. destruct (is_admin _ _); [|done].
    destruct (decide _); [done|].
    destruct (users st !! t); [|inherited_cases]. by apply call_flag_delete.
  - unfold on_stream_status. destruct (users st !! sid) as [u|] eqn:Hl; [|done].
    apply call_flag_update; [|done]. simpl. eauto.
Qed.

(** X10. After every sequence of events, each entry of [appState.users]
    has [inVideoCall] set exactly when its [peerId] is not [null]. *)
Theorem call_flag_invariant (evs : list Event) :
  call_flag_matches (run evs appState).
Proof.
  assert (∀ st, call_flag_matches st → call_flag_matches (run evs st)) as H.
  { induction evs as [|ev evs IH]; intros st Hc; simpl; [done|].
    apply IH. destruct ev as [sid|sid e|sid|]; simpl.
    - by destruct (decide _).
    - destruct (decide _); [by apply call_flag_handle | done].
    - by apply call_flag_close_socket.
    - destruct (timers st) as [|t ts]; [done|]. simpl.
      by apply call_flag_close_socket. }
  apply H. by intros x w Hw.
Qed.

(** ** Kicking a live socket *)

(** X11. In a state the event loop reaches with no timer pending, when the
    admin kicks a student [t] whose socket is live: [kicked] goes to [t]
    alone and nothing else changes but the timer queue; when the timer
    fires, [t]'s entry, socket and room membership are gone, the rest of
    the room is told [peer_left] (if [t] held a handle) and [user_left],
    every other entry is as before; and kicking [t] again does nothing. *)
Theorem kick_then_timeout (evs : list Event) (a t : string) (u : User) :
  let st := run evs appState in
  is_admin a st = true → users st !! t = Some u → role u = Student →
  timers st = [] →
  let st1 := set_timers [t] st in
  let st2 := set_users (delete t (users st)) (detached t st) in
  handle a (In.kick_user t) st
    = Done st1 [mkEmit {[t]} (Out.kicked "Removed by admin")]
  ∧ step timeout st1
    = Done st2
        (peer_notice t u (detached t st)
         ++ [mkEmit (classroom st ∖ {[t]}) (Out.user_left t)])
  ∧ users st2 !! t = None ∧ (t ∉ sockets st2) ∧ (t ∉ classroom st2)
  ∧ (∀ x, x ≠ t → users st2 !! x = users st !! x)
  ∧ handle a (In.kick_user t) st2 = Done st2 [].
Proof.
  intros st Ha Hl Hr Ht st1 st2.
  pose proof (inv_run evs) as Hinv. fold st in Hinv.
  pose proof (joined_connected st t u Hinv Hl) as Hs.
  assert (a ≠ t) as Hat.
  { intros ->. unfold is_admin in Ha. rewrite Hl in Ha.
    apply bool_decide_eq_true in Ha. congruence. }
  split; [|split; [|split; [|split; [|split; [|split]]]]].
  - unfold handle, returned. rewrite (kick_user_live st a t Ha Hs).
    simpl. by rewrite Ht.
  - subst st1. simpl.
    assert (set_timers [] (set_timers [t] st) = st) as ->.
    { destruct st; simpl in *. by subst. }
    rewrite (close_socket_connected st t Hs).
    rewrite (on_disconnect_student (detached t st) t u Hl Hr). simpl.
    unfold returned. simpl. do 3 f_equal.
    unfold socket_to_classroom. simpl. f_equal. set_solver.
  - subst st2. simpl. apply lookup_delete_eq.
  - subst st2. simpl. set_solver.
  - subst st2. simpl. set_solver.
  - intros x Hx. subst st2. simpl. by rewrite lookup_delete_ne.
  - unfold handle, returned, on_kick_user.
    assert (is_admin a st2 = true) as ->.
    { subst st2. unfold is_admin in *. simpl. by rewrite lookup_delete_ne. }
    rewrite decide_False by (subst st2; simpl; set_solver).
    rewrite (inherited_none t st2 (ids_generated_run evs t Hs)).
    subst st2. simpl. by rewrite lookup_delete_eq.
Qed.

Lemma kick_then_timeout_witness :
  let st := run ann_and_bo appState in
  let u := mkUser "Bo" Student false true false None in
  let st1 := set_timers ["b"] st in
  let st2 := set_users (delete "b" (users st)) (detached "b" st) in
  is_admin "a" st = true
  ∧ handle "a" (In.kick_user "b") st
    = Done st1 [mkEmit {["b"]} (Out.kicked "Removed by admin")]
  ∧ step timeout st1
    = Done st2
        (peer_notice "b" u (detached "b" st)
         ++ [mkEmit (classroom st ∖ {["b"]}) (Out.user_left "b")])
  ∧ users st2 !! "b" = None ∧ ("b" ∉ sockets st2) ∧ ("b" ∉ classroom st2)
  ∧ (∀ x, x ≠ "b" → users st2 !! x = users st !! x)
  ∧ handle "a" (In.kick_user "b") st2 = Done st2 [].
Proof.
  split; [vm_compute; reflexivity|].
  exact (kick_then_timeout ann_and_bo "a" "b"
           (mkUser "Bo" Student false true false None)
           ltac:(vm_compute; reflexivity) ltac:(vm_compute; reflexivity)
           eq_refl ltac:(vm_compute; reflexivity)).
Defined.

(** ** Drawing permissions *)



(** X13. After the admin switches drawing off with [toggle_draw], no
    student's [draw_data] is forwarded, whatever its [canDraw], while the
    admin's still is; the room is told [drawing_toggled]. *)
Theorem toggle_draw_off (st : State) (a s data : string) (u : User) :
  is_admin a st = true → users st !! s = Some u →
  let r := on_toggle_draw a false st in
  r = (set_drawingEnabled false st,
       [mkEmit (classroom st) (Out.drawing_toggled false)])
  ∧ (role u = Student → on_draw_data s data r.1 = (r.1, []))
  ∧ (role u = Admin →
     on_draw_data s data r.1
       = (r.1, [mkEmit (classroom st ∖ {[s]}) (Out.draw_data data s)])).
Proof.
  intros Ha Hl r. subst r. unfold on_toggle_draw. rewrite Ha. simpl.
  split; [done|]. unfold on_draw_data, may_draw. simpl. rewrite Hl.
  split; intros ->; simpl; done.
Qed.

Lemma toggle_draw_off_witness :
  let st := run ann_and_bo appState in
  let u := mkUser "Bo" Student false true false None in
  let r := on_toggle_draw "a" false st in
  is_admin "a" st = true
  ∧ r = (set_drawingEnabled false st,
         [mkEmit (classroom st) (Out.drawing_toggled false)])
  ∧ (role u = Student → on_draw_data "b" "stroke" r.1 = (r.1, []))
  ∧ (role u = Admin →
     on_draw_data "b" "stroke" r.1
       = (r.1, [mkEmit (classroom st ∖ {["b"]}) (Out.draw_data "stroke" "b")])).
Proof.
  intros st u.
  assert (is_admin "a" st = true) as Ha by (vm_compute; reflexivity).
  assert (users st !! "b" = Some u) as Hl by (vm_compute; reflexivity).
  clearbody st. split; [exact Ha|].
  exact (toggle_draw_off st "a" "b" "stroke" u Ha Hl).
Defined.

(** ** Who is ever sent a message *)

Lemma close_socket_rcpt st sid e :
  e ∈ (close_socket sid st).2 → rcpt e ⊆ classroom st.
Proof.
  unfold close_socket. destruct (decide _); [|by intros ?%not_elem_of_nil].
  unfold on_disconnect. simpl. destruct (users st !! sid) as [u|];
    [|by intros ?%not_elem_of_nil].
  assert (∀ e', e' ∈ peer_notice sid u (detached sid st) →
                rcpt e' ⊆ classroom st) as Hn.
  { unfold peer_notice. destruct (peerId u) as [p|];
      [|by intros e' ?%not_elem_of_nil].
    destruct (truthy _); [|by intros e' ?%not_elem_of_nil].
    intros e' ->%list_elem_of_singleton. simpl. set_solver. }
  fold (peer_notice sid u (detached sid st)).
  destruct (role u); simpl;
    intros [He | ->%list_elem_of_singleton]%elem_of_app; auto;
    simpl; set_solver.
Qed.

Ltac rcpt_connected He :=
  simpl in He;
  repeat (apply elem_of_cons in He as [-> | He]; [simpl; set_solver|]);
  by apply not_elem_of_nil in He.

(** X14. In every state the event loop reaches, whatever event comes next,
    each message it emits is delivered to sockets that are connected when
    the event starts: nothing is ever sent to a socket that is gone. *)
Theorem emits_to_connected (evs : list Event) (ev : Event) (e : Emission) :
  let st := run evs appState in
  e ∈ emitted (step ev st) → rcpt e ⊆ sockets st.
Proof.
  intros st. pose proof (inv_run evs) as Hinv. fold st in Hinv.
  pose proof (inv_room st Hinv) as Hroom. clearbody st.
  destruct ev as [sid|sid ev|sid|]; simpl.
  - destruct (decide _); by intros ?%not_elem_of_nil.
  - destruct (decide _) as [Hs|]; [|by intros ?%not_elem_of_nil].
    destruct ev as [nm code|code|p|p|p un ur| |m now iso|mid|d| |b|t b|t|b];
      unfold handle, returned; cbn [emitted].
    + unfold on_join_room. destruct (_ && _); simpl; intros He;
        rcpt_connected He.
    + unfold on_set_admin. destruct (_ && _); simpl.
      * destruct (users st !! sid); simpl; intros He; rcpt_connected He.
      * intros He; rcpt_connected He.
    + unfold on_peer_ready. destruct (users st !! sid); simpl;
        [|by intros ?%not_elem_of_nil].
      destruct (decide _); simpl; intros He; rcpt_connected He.
    + unfold on_peer_left. destruct (users st !! sid); simpl;
        [|by intros ?%not_elem_of_nil].
      destruct (decide _); simpl; intros He; rcpt_connected He.
    + unfold on_peer_joined. destruct (users st !! sid); simpl;
        intros He; rcpt_connected He.
    + unfold on_leave_session. simpl.
      set (r1 := match users st !! sid with Some _ => _ | None => _ end).
      assert (classroom r1.1 = classroom st
              ∧ ∀ e', e' ∈ r1.2 → rcpt e' ⊆ sockets st) as [Hc Hr1].
      { subst r1. destruct (users st !! sid) as [u|]; simpl;
          [|split; [done | by intros e' ?%not_elem_of_nil]].
        destruct (role u); simpl; (split; [done|]);
          intros e' ->%list_elem_of_singleton; simpl; set_solver. }
      clearbody r1. intros [He | He]%elem_of_app; [by apply Hr1|].
      apply close_socket_rcpt in He. rewrite Hc in He. set_solver.
    + unfold on_chat_message. destruct (users st !! sid); simpl;
        intros He; rcpt_connected He.
    + unfold on_delete_message. destruct (is_admin _ _); simpl;
        intros He; rcpt_connected He.
    + unfold on_draw_data. destruct (users st !! sid); simpl;
        [|by intros ?%not_elem_of_nil].
      destruct (may_draw _ _); simpl; intros He; rcpt_connected He.
    + unfold on_clear_canvas. destruct (is_admin _ _); simpl;
        intros He; rcpt_connected He.
    + unfold on_toggle_draw. destruct (is_admin _ _); simpl;
        intros He; rcpt_connected He.
    + unfold on_set_user_draw. destruct (is_admin _ _); simpl;
        [|by intros ?%not_elem_of_nil].
      destruct (users st !! t); simpl; [intros He; rcpt_connected He|].
      destruct (inherited t st) as [v|]; [|by intros ?%not_elem_of_nil].
      destruct (truthy_inherited v); [|by intros ?%not_elem_of_nil].
      destruct v; simpl; intros He; rcpt_connected He.
    + unfold on_kick_user. destruct (is_admin _ _); simpl;
        [|by intros ?%not_elem_of_nil].
      destruct (decide _); simpl; [intros He; rcpt_connected He|].
      destruct (users st !! t); simpl; [intros He; rcpt_connected He|].
      destruct (inherited t st) as [v|]; [|by intros ?%not_elem_of_nil].
      destruct (truthy_inherited v); simpl; intros He; rcpt_connected He.
    + unfold on_stream_status. destruct (users st !! sid); simpl;
        intros He; rcpt_connected He.
  - intros He%close_socket_rcpt. set_solver.
  - destruct (timers st) as [|t ts]; [by intros ?%not_elem_of_nil|].
    simpl. intros He%close_socket_rcpt. simpl in He. set_solver.
Qed.

Lemma emits_to_connected_witness :
  let st := run bo_in_call appState in
  let e := mkEmit (classroom (detached "b" st) ∖ {["b"]}) (Out.peer_left "pb") in
  e ∈ emitted (step (transport_close "b") st) ∧ rcpt e ⊆ sockets st.
Proof.
  assert (mkEmit (classroom (detached "b" (run bo_in_call appState)) ∖ {["b"]})
            (Out.peer_left "pb")
          ∈ emitted (step (transport_close "b") (run bo_in_call appState)))
    as He.
  { replace (emitted (step (transport_close "b") (run bo_in_call appState)))
      with [mkEmit (classroom (detached "b" (run bo_in_call appState)) ∖ {["b"]})
              (Out.peer_left "pb");
            mkEmit (classroom (detached "b" (run bo_in_call appState)) ∖ {["b"]})
              (Out.user_left "b")]
      by (vm_compute; reflexivity).
    apply list_elem_of_here. }
  split; [exact He|].
  exact (emits_to_connected bo_in_call (transport_close "b") _ He).
Defined.

(** ** After the reset *)

(** The state when the admin's socket closed or left: the room state is
    reset and the admin code is the one configured. *)
Lemma admin_gone_reset st sid u ev :
  inv st → users st !! sid = Some u → role u = Admin →
  ev = transport_close sid ∨ ev = packet sid In.leave_session →
  fully_reset (final (step ev st))
  ∧ adminCode (final (step ev st)) = adminCode st.
Proof.
  intros Hinv Hl Hr Hev.
  pose proof (joined_connected st sid u Hinv Hl) as Hs.
  destruct Hev as [-> | ->]; simpl.
  - rewrite (close_socket_connected st sid Hs).
    by rewrite (on_disconnect_admin (detached sid st) sid u Hl Hr).
  - rewrite decide_True by done. simpl. unfold on_leave_session.
    rewrite Hl, Hr. simpl.
    rewrite (close_socket_connected _ sid) by done.
    by rewrite on_disconnect_absent.
Qed.

(** X15. After the admin's socket closed or sent [leave_session], the next
    [join_room] that presents the admin code becomes the admin of an
    otherwise empty room: the joiner's entry is the only one, it has role
    ['admin'], [appState.admin] is the joiner's id, and the joiner's
    [join_success] carries that roster, an empty chat log and drawing
    enabled. *)
Theorem room_reclaimed_after_reset (evs : list Event) (sid j nm : string)
    (u : User) (ev : Event) :
  let st := run evs appState in
  users st !! sid = Some u → role u = Admin →
  ev = transport_close sid ∨ ev = packet sid In.leave_session →
  let st' := final (step ev st) in
  let entry := mkUser nm Admin false true false None in
  let r := on_join_room j nm (Some (adminCode st)) st' in
  users r.1 = {[j := entry]}
  ∧ admin r.1 = Some j
  ∧ head r.2
    = Some (mkEmit {[j]} (Out.join_success Admin {[j := entry]} [] true true)).
Proof.
  intros st Hl Hr Hev st' entry r.
  pose proof (inv_run evs) as Hinv. fold st in Hinv.
  destruct (admin_gone_reset st sid u ev Hinv Hl Hr Hev)
    as [(Hu & Hc & Hd & Ha) Hcode].
  fold st' in Hu, Hc, Hd, Ha, Hcode. clearbody st'.
  subst r. unfold on_join_room. rewrite Ha, Hcode.
  rewrite bool_decide_eq_true_2 by done. simpl.
  rewrite Hu, Hc, Hd. rewrite insert_empty. done.
Qed.

Lemma room_reclaimed_after_reset_witness :
  let st := run ann_and_bo appState in
  let st' := final (step (transport_close "a") st) in
  let entry := mkUser "Bo" Admin false true false None in
  let r := on_join_room "b" "Bo" (Some (adminCode st)) st' in
  users st !! "a" = Some (mkUser "Ann" Admin false true false None)
  ∧ users r.1 = {["b" := entry]}
  ∧ admin r.1 = Some "b"
  ∧ head r.2
    = Some (mkEmit {["b"]}
              (Out.join_success Admin {["b" := entry]} [] true true)).
Proof.
  split; [vm_compute; reflexivity|].
  exact (room_reclaimed_after_reset ann_and_bo "a" "b" "Bo"
           (mkUser "Ann" Admin false true false None) (transport_close "a")
           ltac:(vm_compute; reflexivity) eq_refl (or_introl eq_refl)).
Defined.

(** ** The HTTP endpoints and the CORS origin checks *)

(** X16. After every sequence of events, the user count that [/state] and
    [/health] report is at most the number of connected sockets; when an
    entry has role ['admin'] they report an admin; and when they report no
    admin every entry is a student. *)
Theorem endpoints_consistent (evs : list Event) :
  let st := run evs appState in
  (userCount (get_state st) ≤ size (sockets st))%nat
  ∧ h_users (get_health st) = userCount (get_state st)
  ∧ (owner_exists st →
     hasAdmin (get_state st) = true ∧ h_admin (get_health st) = "present")
  ∧ (hasAdmin (get_state st) = false →
     h_admin (get_health st) = "none"
     ∧ ∀ sid u, users st !! sid = Some u → role u = Student).
Proof.
  intros st. pose proof (inv_run evs) as Hinv. fold st in Hinv. clearbody st.
  split; [|split; [done|split]].
  - simpl. rewrite <- size_dom. apply subseteq_size.
    pose proof (inv_users st Hinv). pose proof (inv_room st Hinv). set_solver.
  - intros (a & ua & Ha & Hra). simpl.
    by rewrite (truthy_admin st Hinv a ua Ha Hra).
  - simpl. intros Ht. rewrite Ht. split; [done|].
    intros sid u Hl. destruct (role u) eqn:Hr; [done|].
    rewrite (truthy_admin st Hinv sid u Hl Hr) in Ht. discriminate.
Qed.

Lemma endpoints_consistent_witness :
  let st := run ann_and_bo appState in
  owner_exists st
  ∧ hasAdmin (get_state st) = true ∧ h_admin (get_health st) = "present".
Proof.
  assert (owner_exists (run ann_and_bo appState)) as Ho.
  { exists "a", (mkUser "Ann" Admin false true false None).
    split; [vm_compute; reflexivity | reflexivity]. }
  split; [exact Ho|].
  exact (proj1 (proj2 (proj2 (endpoints_consistent ann_and_bo))) Ho).
Defined.

Lemma elem_of_filter_Boolean (o : string) (l : list (option string)) :
  o ∈ filter_Boolean l ↔ o ≠ "" ∧ Some o ∈ l.
Proof.
  unfold filter_Boolean. rewrite list_elem_of_omap. split.
  - intros (v & Hv & Ht). destruct v as [s|]; simpl in Ht; [|done].
    destruct (bool_decide (s ≠ "")) eqn:Hs; [|done].
    apply bool_decide_eq_true in Hs. by simplify_eq.
  - intros [Hne Hin]. exists (Some o). split; [done|]. simpl.
    by rewrite bool_decide_eq_true_2.
Qed.

(** X17. The Socket.IO and the Express origin checks decide alike, and they
    refuse a request exactly when the server runs in production, at least
    one of [FRONTEND_URL] and [RENDER_EXTERNAL_URL] is set to a non-empty
    url, and the request carries a non-empty origin that equals neither.
    In particular every origin is granted in production when no url is
    configured. *)
Theorem cors_policy (env : Env) (origin : option string) :
  socket_cors_origin env origin = http_cors_origin env origin
  ∧ (http_cors_origin env origin = Refused "Not allowed by CORS" ↔
     NODE_ENV env = Some "production"
     ∧ (truthy (FRONTEND_URL env) = true
        ∨ truthy (RENDER_EXTERNAL_URL env) = true)
     ∧ ∃ o, origin = Some o ∧ o ≠ ""
            ∧ Some o ≠ FRONTEND_URL env ∧ Some o ≠ RENDER_EXTERNAL_URL env)
  ∧ (http_cors_origin env origin = Granted ∨
     http_cors_origin env origin = Refused "Not allowed by CORS").
Proof.
  split; [done|].
  unfold http_cors_origin, allowedOrigins.
  destruct (decide (NODE_ENV env = Some "production")) as [Hp|Hp];
    [|split; [split; [done | by intros [? _]] | by left]].
  set (l := filter_Boolean [FRONTEND_URL env; RENDER_EXTERNAL_URL env]).
  assert (∀ o, o ∈ l ↔ o ≠ "" ∧ (Some o = FRONTEND_URL env
                                  ∨ Some o = RENDER_EXTERNAL_URL env)) as Hl.
  { intros o. subst l. rewrite elem_of_filter_Boolean. set_solver. }
  assert (length l = 0%nat ↔ ¬ (truthy (FRONTEND_URL env) = true
                            ∨ truthy (RENDER_EXTERNAL_URL env) = true)) as Hlen.
  { subst l. unfold filter_Boolean. simpl.
    destruct (truthy (FRONTEND_URL env)) eqn:Hf,
             (truthy (RENDER_EXTERNAL_URL env)) eqn:Hr;
      destruct (FRONTEND_URL env), (RENDER_EXTERNAL_URL env);
      simpl; try done; naive_solver. }
  clearbody l.
  destruct (bool_decide (length l = 0%nat)) eqn:Hz.
  - apply bool_decide_eq_true in Hz. apply Hlen in Hz.
    split; [split; [done | by intros (_ & ? & _)] | by left].
  - apply bool_decide_eq_false in Hz.
    assert (truthy (FRONTEND_URL env) = true
            ∨ truthy (RENDER_EXTERNAL_URL env) = true) as Hcfg.
    { destruct (truthy (FRONTEND_URL env)); [by left|].
      destruct (truthy (RENDER_EXTERNAL_URL env)); [by right|].
      destruct Hz. apply Hlen. by intros [|]. }
    unfold origin_passes. destruct origin as [o|]; simpl.
    + destruct (decide (o = "")) as [->|Hne].
      * rewrite bool_decide_eq_false_2 by (by intros ?). simpl.
        split; [split; [done|] | by left].
        intros (_ & _ & o' & ? & ? & _). by simplify_eq.
      * rewrite bool_decide_eq_true_2 by done. simpl.
        destruct (bool_decide (o ∈ l)) eqn:Hin.
        -- apply bool_decide_eq_true, Hl in Hin as [_ Hin].
           split; [split; [done|] | by left].
           intros (_ & _ & o' & ? & _ & ? & ?). simplify_eq. by destruct Hin.
        -- apply bool_decide_eq_false in Hin. split; [|by right].
           split; [|done]. intros _. split; [done|]. split; [done|].
           exists o. repeat split; try done; intros E; apply Hin, Hl; auto.
    + split; [split; [done|] | by left].
      intros (_ & _ & o' & ? & _). done.
Qed.

Lemma cors_policy_witness :
  let env := mkEnv (Some "production") (Some "https://app.example") None in
  http_cors_origin env (Some "https://evil.example")
    = Refused "Not allowed by CORS"
  ∧ socket_cors_origin env (Some "https://app.example") = Granted.
Proof.
  split; [|vm_compute; reflexivity].
  apply (proj1 (proj2 (cors_policy
                         (mkEnv (Some "production")
                            (Some "https://app.example") None)
                         (Some "https://evil.example")))).
  split; [reflexivity|]. split; [by left|].
  exists "https://evil.example". repeat split; discriminate.
Defined.

(** ** Properties of the account handlers *)

(** ** Targets that are inherited property names *)

(** X24. In every state the event loop reaches, [appState.users] has no
    entry under ['__proto__'] or under the name of a function of
    [Object.prototype], and no socket has such an id; yet the lookup
    [appState.users[targetUserId]] finds the inherited value.  So the
    admin's [kick_user] on such a name broadcasts [user_left] for it and
    leaves the state as it was, and the admin's [set_user_draw] on it
    broadcasts [user_updated] with the inherited value and changes no
    entry; on ['__proto__'] it stores [canDraw] on [Object.prototype]. *)
Theorem inherited_target_misfires (evs : list Event) (sid target : string)
    (b : bool) :
  let st := run evs appState in
  is_admin sid st = true →
  target = "__proto__" ∨ target ∈ Object_prototype_functions →
  users st !! target = None ∧ (target ∉ sockets st)
  ∧ handle sid (In.kick_user target) st
    = Done st [io_to_classroom st (Out.user_left target)]
  ∧ ∃ v, inherited target st = Some v
      ∧ (v = Object_prototype ∧ target = "__proto__" ∨ v = builtin target)
      ∧ let st' := assign_canDraw v b st in
        handle sid (In.set_user_draw target b) st
        = Done st' [io_to_classroom st' (Out.user_updated_inherited target v)]
        ∧ users st' = users st
        ∧ (target = "__proto__" → prototype_canDraw st' = Some b)
        ∧ (target ≠ "__proto__" → st' = st).
Proof.
  intros st Ha Ht.
  assert (target ∈ prototype_names) as Hp.
  { unfold prototype_names. destruct Ht as [-> | Hf]; set_solver. }
  assert (target ∉ sockets st) as Hs.
  { intros Hin. by apply (ids_generated_run evs target Hin). }
  pose proof (vanished_no_entry evs target Hs) as Hl. fold st in Hl.
  split; [done|]. split; [done|].
  unfold handle, returned, on_kick_user, on_set_user_draw.
  rewrite Ha, Hl, decide_False by done. unfold inherited.
  destruct (decide (target = "__proto__")) as [-> | Hn].
  - split; [done|]. exists Object_prototype. split; [done|].
    split; [by left|]. by simpl.
  - destruct Ht as [? | Hf]; [done|]. rewrite decide_True by done.
    split; [done|]. exists (builtin target). split; [done|].
    split; [by right|]. by simpl.
Qed.

Section AccountProperties.

Variable emailRegex_test : string → bool.
Variable bcrypt_hash : string → string → string.
Variable bcrypt_compare : string → string → bool.
Variable jwt_sign : Auth.Claims → N → string.
Variable jwt_verify : string → option Auth.Claims.
Variable env_ADMIN_CODE : option string.

Abbreviation register :=
  (Auth.register emailRegex_test bcrypt_hash jwt_sign env_ADMIN_CODE).
Abbreviation login := (Auth.login bcrypt_compare jwt_sign).
Abbreviation ADMIN_CODE := (Auth.ADMIN_CODE env_ADMIN_CODE).
Abbreviation register_checks :=
  (Auth.register_checks emailRegex_test env_ADMIN_CODE).
Abbreviation login_answer := (Auth.login_answer bcrypt_compare jwt_sign).

Lemma truthy_Some (s : string) : truthy (Some s) = true ↔ s ≠ "".
Proof. simpl. apply bool_decide_eq_true. Qed.

Lemma ADMIN_CODE_nonempty : ADMIN_CODE ≠ "".
Proof.
  unfold Auth.ADMIN_CODE. destruct env_ADMIN_CODE as [c|]; [|done].
  destruct (truthy (Some c)) eqn:Ht; [|done]. by apply truthy_Some.
Qed.

(** What a registration answered 201 did, and what every other one did. *)
Lemma register_cases (en : Auth.Entropy) (b : Auth.RegisterBody)
    (users : list Auth.Account) :
  (Auth.status (register en b users).2 ≠ 201
   ∧ (register en b users).1 = users)
  ∨ ∃ em un pw,
      Auth.r_email b = Some em ∧ Auth.r_username b = Some un
      ∧ Auth.r_password b = Some pw
      ∧ em ≠ "" ∧ un ≠ "" ∧ emailRegex_test em = true
      ∧ (6 ≤ String.length pw)%nat
      ∧ (default "student" (Auth.r_role b) = "student"
         ∨ default "student" (Auth.r_role b) = "admin"
           ∧ Auth.r_adminCode b = Some ADMIN_CODE)
      ∧ Auth.findUserByEmailOrUsername em users = None
      ∧ Auth.findUserByEmailOrUsername un users = None
      ∧ let acc := Auth.mkAccount (Auth.generated_id en) em un
                     (bcrypt_hash (Auth.salt en) pw)
                     (default "student" (Auth.r_role b))
                     (Auth.now_iso en) (Auth.now_iso en) in
        register en b users
        = (users ++ [acc],
           Auth.mkResponse 201
             (Auth.authenticated "User registered successfully"
                (jwt_sign (Auth.mkClaims (Auth.id acc) un (Auth.role acc))
                   (Auth.iat en))
                (Auth.public acc))).
Proof.
  unfold Auth.register.
  destruct (Auth.r_email b) as [em|] eqn:Hem; [|by left].
  destruct (Auth.r_username b) as [un|] eqn:Hun; [|by left].
  destruct (Auth.r_password b) as [pw|] eqn:Hpw; [|by left].
  destruct (negb (truthy (Some em)) || negb (truthy (Some un))
            || negb (truthy (Some pw))) eqn:Hmiss; [by left|].
  apply orb_false_iff in Hmiss as [Hmiss _].
  apply orb_false_iff in Hmiss as [He Hu].
  apply negb_false_iff, truthy_Some in He, Hu.
  destruct (negb (emailRegex_test em)) eqn:Hre; [by left|].
  apply negb_false_iff in Hre.
  destruct (bool_decide (String.length pw < 6)%nat) eqn:Hlen; [by left|].
  apply bool_decide_eq_false in Hlen.
  destruct (bool_decide (default "student" (Auth.r_role b) ≠ "student"
                         ∧ default "student" (Auth.r_role b) ≠ "admin"))
    eqn:Hrole; [by left|].
  apply bool_decide_eq_false in Hrole.
  destruct (bool_decide (default "student" (Auth.r_role b) = "admin")
            && (negb (truthy (Auth.r_adminCode b))
                || bool_decide (Auth.r_adminCode b ≠ Some ADMIN_CODE)))
    eqn:Hcode; [by left|].
  destruct (Auth.findUserByEmailOrUsername em users) as [x|] eqn:Hf1.
  { left. by destruct (bool_decide (Auth.email x = em)). }
  destruct (Auth.findUserByEmailOrUsername un users) as [x|] eqn:Hf2.
  { left. by destruct (bool_decide (Auth.email x = em)). }
  right. exists em, un, pw. repeat (split; [done || lia|]).
  split; [|done].
  destruct (decide (default "student" (Auth.r_role b) = "student")) as [|Hns];
    [by left|right].
  assert (default "student" (Auth.r_role b) = "admin") as Hadm.
  { destruct (decide (default "student" (Auth.r_role b) = "admin")); [done|].
    by destruct Hrole. }
  split; [done|]. rewrite bool_decide_eq_true_2 in Hcode by done.
  simpl in Hcode. apply orb_false_iff in Hcode as [_ Hcode].
  apply bool_decide_eq_false in Hcode.
  by destruct (decide (Auth.r_adminCode b = Some ADMIN_CODE)).
Qed.

(** X18. [register] stores an account with role ['admin'] only for a request
    that presents the admin code, which is never the empty string; a
    request for role ['admin'] without it is answered 403 and stores
    nothing. *)
Theorem register_admin_needs_code (en : Auth.Entropy) (b : Auth.RegisterBody)
    (users : list Auth.Account) :
  ADMIN_CODE ≠ ""
  ∧ (∀ acc, acc ∈ (register en b users).1 → acc ∉ users →
            Auth.role acc = "admin" →
            Auth.r_adminCode b = Some ADMIN_CODE)
  ∧ (Auth.r_role b = Some "admin" →
     Auth.r_adminCode b ≠ Some ADMIN_CODE →
     (register en b users).1 = users
     ∧ Auth.status (register en b users).2 ≠ 201).
Proof.
  split; [apply ADMIN_CODE_nonempty|].
  destruct (register_cases en b users)
    as [[Hs Hu] | (em & un & pw & _ & _ & _ & _ & _ & _ & _ & Hr & _ & _ & E)].
  - rewrite Hu. split; [by intros acc ? ?|done].
  - cbv zeta in E. rewrite E. simpl. split.
    + intros acc [Hin | ->%list_elem_of_singleton]%elem_of_app Hnew Hadm;
        [done|]. simpl in Hadm. destruct Hr as [Hr | [_ Hr]]; [|done].
      rewrite Hr in Hadm. discriminate.
    + intros Hrole Hcode. rewrite Hrole in Hr. simpl in Hr.
      by destruct Hr as [? | [_ ?]].
Qed.

(** X19. On the file storage ([users.json], the branch taken when the
    Prisma client is not available), for a [register] that no other request
    interleaves with: a registration that is not answered 201 leaves the
    file as it was.  One that is answered 201 appends exactly one account:
    it has the email and the username of the request, which are not empty,
    an email that passes the pattern, role ['student'] or ['admin'], and as
    password the bcrypt hash of a password of at least six characters. *)
Theorem register_store_effect (en : Auth.Entropy) (b : Auth.RegisterBody)
    (users : list Auth.Account) :
  let r := register en b users in
  (Auth.status r.2 ≠ 201 → r.1 = users)
  ∧ (Auth.status r.2 = 201 →
     ∃ acc pw,
       r.1 = users ++ [acc]
       ∧ Auth.r_email b = Some (Auth.email acc) ∧ Auth.email acc ≠ ""
       ∧ Auth.r_username b = Some (Auth.username acc)
       ∧ Auth.username acc ≠ ""
       ∧ emailRegex_test (Auth.email acc) = true
       ∧ (Auth.role acc = "student" ∨ Auth.role acc = "admin")
       ∧ Auth.r_password b = Some pw ∧ (6 ≤ String.length pw)%nat
       ∧ Auth.password acc = bcrypt_hash (Auth.salt en) pw
       ∧ Auth.id acc = Auth.generated_id en).
Proof.
  intros r. subst r.
  destruct (register_cases en b users)
    as [[Hs Hu] | (em & un & pw & ? & ? & ? & ? & ? & ? & ? & Hr & _ & _ & E)].
  - split; [done|]. by intros ?.
  - cbv zeta in E. rewrite E. simpl. split; [done|]. intros _.
    eexists _, pw. split; [reflexivity|]. simpl.
    repeat (split; [done|]). split; [|done]. by destruct Hr as [? | [? _]]; [left|right].
Qed.

Lemma find_own (users : list Auth.Account) (i : nat) (acc : Auth.Account)
    (value : string) :
  Auth.idents_apart users → users !! i = Some acc →
  value = Auth.email acc ∨ value = Auth.username acc →
  Auth.findUserByEmailOrUsername value users = Some acc.
Proof.
  intros Hap Hi Hv. unfold Auth.findUserByEmailOrUsername.
  destruct (list_find _ users) as [[j x]|] eqn:Hf; simpl.
  - apply list_find_Some in Hf as (Hj & Hx & _).
    destruct (decide (i = j)) as [->|Hij]; [congruence|].
    destruct (Hap i j acc x Hi Hj Hij) as (? & ? & ?).
    destruct (Hap j i x acc Hj Hi (not_eq_sym Hij)) as (? & ? & ?).
    destruct Hv as [-> | ->], Hx as [Hx | Hx]; congruence.
  - rewrite list_find_None, Forall_forall in Hf.
    apply list_elem_of_lookup_2 in Hi. specialize (Hf acc Hi). simpl in Hf.
    destruct Hv as [-> | ->]; tauto.
Qed.

(** X21. On the file storage ([users.json], the branch taken when the
    Prisma client is not available), when the file holds accounts whose
    identifiers are apart: [login] with the email or with the username of an
    account and a password that bcrypt accepts for the account's hash is
    answered 200 with a token signed for that account and that account's
    id, email, username and role. *)
Theorem login_finds_account (en : Auth.Entropy) (users : list Auth.Account)
    (i : nat) (acc : Auth.Account) (value pw : string) :
  Auth.idents_apart users → users !! i = Some acc →
  value = Auth.email acc ∨ value = Auth.username acc →
  value ≠ "" → pw ≠ "" → bcrypt_compare pw (Auth.password acc) = true →
  login en (Auth.mkLogin (Some value) (Some pw)) users
  = Auth.mkResponse 200
      (Auth.authenticated "Login successful"
         (jwt_sign (Auth.mkClaims (Auth.id acc) (Auth.username acc)
                      (Auth.role acc)) (Auth.iat en))
         (Auth.public_login acc)).
Proof.
  intros Hap Hi Hv Hne Hpw Hc. unfold Auth.login. simpl.
  rewrite !bool_decide_eq_true_2 by done. simpl.
  rewrite (find_own users i acc value Hap Hi Hv). by rewrite Hc.
Qed.

(** X22. On the file storage ([users.json], the branch taken when the
    Prisma client is not available): [login] answers an unknown identifier
    and a wrong password alike, with 401 and ['Invalid credentials']; it
    answers 200 only when the first account of the file that has the
    identifier as email or username has a hash that bcrypt accepts for the
    password. *)
Theorem login_failures_alike (en : Auth.Entropy) (users : list Auth.Account)
    (value pw : string) :
  value ≠ "" → pw ≠ "" →
  let resp := login en (Auth.mkLogin (Some value) (Some pw)) users in
  ((Auth.findUserByEmailOrUsername value users = None
    ∨ ∃ u, Auth.findUserByEmailOrUsername value users = Some u
           ∧ bcrypt_compare pw (Auth.password u) = false) →
   resp = Auth.mkResponse 401 (Auth.error "Invalid credentials"))
  ∧ (Auth.status resp = 200 →
     ∃ u, Auth.findUserByEmailOrUsername value users = Some u
          ∧ bcrypt_compare pw (Auth.password u) = true).
Proof.
  intros Hne Hpw resp. subst resp. unfold Auth.login. simpl.
  rewrite !bool_decide_eq_true_2 by done. simpl.
  destruct (Auth.findUserByEmailOrUsername value users) as [u|].
  - destruct (bcrypt_compare pw (Auth.password u)) eqn:Hc; simpl.
    + split; [|by eauto]. intros [? | (u' & ? & ?)]; [done|]. congruence.
    + split; [done|]. intros ?. done.
  - split; [done|]. intros ?. done.
Qed.

Lemma substring_whole (s : string) :
  String.substring 0 (String.length s) s = s.
Proof. induction s as [|c s IH]; simpl; [done | by rewrite IH]. Qed.

Lemma replace_first_unfold (pat rep s : string) :
  Auth.replace_first pat rep s =
    if String.prefix pat s
    then rep +:+ String.substring (String.length pat)
                   (String.length s - String.length pat) s
    else match s with
         | EmptyString => EmptyString
         | String c s' => String c (Auth.replace_first pat rep s')
         end.
Proof. by destruct s. Qed.

Lemma prefix_app (pat t : string) : String.prefix pat (pat +:+ t) = true.
Proof.
  induction pat as [|c pat IH]; simpl; [by destruct t|].
  destruct (Ascii.ascii_dec c c) as [_|Hn]; [done | by destruct Hn].
Qed.

Lemma substring_app (pat t : string) :
  String.substring (String.length pat)
    (String.length (pat +:+ t) - String.length pat) (pat +:+ t) = t.
Proof.
  induction pat as [|c pat IH]; simpl.
  - rewrite Nat.sub_0_r. apply substring_whole.
  - apply IH.
Qed.

(** Stripping the scheme off a [Bearer] header gives the token back. *)
Lemma replace_first_Bearer (t : string) :
  Auth.replace_first "Bearer " "" ("Bearer " +:+ t) = t.
Proof.
  rewrite replace_first_unfold, prefix_app, substring_app. done.
Qed.

Lemma findUserById_fresh (users : list Auth.Account) (acc : Auth.Account) :
  (∀ u, u ∈ users → Auth.id u ≠ Auth.id acc) →
  Auth.findUserById (Auth.id acc) (users ++ [acc]) = Some acc.
Proof.
  intros Hfresh. unfold Auth.findUserById.
  induction users as [|x l IH]; simpl.
  - by rewrite decide_True.
  - rewrite decide_False by (apply Hfresh; left).
    assert (∀ u, u ∈ l → Auth.id u ≠ Auth.id acc) as Hl.
    { intros u Hu. apply Hfresh. by right. }
    specialize (IH Hl).
    destruct (list_find _ (l ++ [acc])) as [[k y]|]; simpl in *; [done|done].
Qed.

(** X23. On the file storage ([users.json], the branch taken when the
    Prisma client is not available), for a [register] that no other request
    interleaves with: when the registration is answered 201 and the
    generated id is the id of no account already in the file, a
    [GET /api/auth/profile] that presents the returned token as [Bearer]
    header, on the file as the registration left it, is answered 200 with
    the very [user] object the registration returned, provided the token is
    not empty and verifies to claims that carry the id it was signed
    for. *)
Theorem register_then_profile (en : Auth.Entropy) (b : Auth.RegisterBody)
    (users : list Auth.Account) (message token : string)
    (user : Auth.PublicUser) (c : Auth.Claims) :
  let r := register en b users in
  Auth.body r.2 = Auth.authenticated message token user →
  (∀ u, u ∈ users → Auth.id u ≠ Auth.generated_id en) →
  token ≠ "" → jwt_verify token = Some c →
  Auth.c_userId c = Auth.p_id user →
  Auth.profile_route jwt_verify (Some ("Bearer " +:+ token)) r.1
  = Auth.mkResponse 200 (Auth.profile user).
Proof.
  intros r Hbody Hfresh Hne Hver Hid. subst r.
  destruct (register_cases en b users)
    as [[Hs Hu] | (em & un & pw & _ & _ & _ & _ & _ & _ & _ & _ & _ & _ & E)].
  - exfalso. revert Hs Hbody. unfold Auth.register.
    repeat case_match; simpl; try done.
  - cbv zeta in E. rewrite E in Hbody |- *. simpl in Hbody |- *.
    simplify_eq. unfold Auth.profile_route, Auth.verifyToken.
    cbn [fmap option_fmap option_map]. rewrite replace_first_Bearer.
    cbn [truthy]. rewrite bool_decide_eq_true_2 by done.
    cbn [negb mbind option_bind]. rewrite Hver.
    unfold Auth.getProfile. rewrite Hid. simpl Auth.p_id.
    set (acc := Auth.mkAccount _ _ _ _ _ _ _).
    change (Auth.generated_id en) with (Auth.id acc).
    by rewrite findUserById_fresh.
Qed.

(** ** The handlers apart from the storage *)

(** On the file storage, with no other request in between, [register] is
    [register_checks] on what the two lookups in the file return, followed
    by [createUser]. *)
Lemma register_on_file (en : Auth.Entropy) (b : Auth.RegisterBody)
    (users : list Auth.Account) :
  register en b users
  = match
      register_checks b
        (em ← Auth.r_email b; un ← Auth.r_username b;
         match Auth.findUserByEmailOrUsername em users with
         | Some u => Some u
         | None => Auth.findUserByEmailOrUsername un users
         end)
    with
    | inl r => (users, r)
    | inr n =>
        let r := Auth.createUser en (Auth.n_email n) (Auth.n_username n)
                   (bcrypt_hash (Auth.salt en) (Auth.n_password n))
                   (Auth.n_role n) users in
        (r.1,
         Auth.mkResponse 201
           (Auth.authenticated "User registered successfully"
              (jwt_sign (Auth.mkClaims (Auth.id r.2) (Auth.username r.2)
                           (Auth.role r.2)) (Auth.iat en))
              (Auth.public r.2)))
    end.
Proof.
  unfold Auth.register, Auth.register_checks.
  destruct (Auth.r_email b) as [em|]; [|done].
  destruct (Auth.r_username b) as [un|]; [|done].
  destruct (Auth.r_password b) as [pw|]; [|done].
  cbn [mbind option_bind].
  repeat (match goal with
          | |- context [if ?c then _ else _] => destruct c
          end; try done).
  all: destruct (Auth.findUserByEmailOrUsername em users) as [x|];
    [by destruct (bool_decide _)|];
    destruct (Auth.findUserByEmailOrUsername un users) as [x|];
    [by destruct (bool_decide _) | done].
Qed.

(** On the file storage, [login] is [login_answer] on what the lookup in
    the file returns. *)
Lemma login_on_file (en : Auth.Entropy) (b : Auth.LoginBody)
    (users : list Auth.Account) :
  login en b users
  = login_answer en b
      (v ← Auth.l_emailOrUsername b; Auth.findUserByEmailOrUsername v users).
Proof.
  unfold Auth.login, Auth.login_answer.
  destruct (Auth.l_emailOrUsername b) as [v|]; [|done].
  by destruct (Auth.l_password b).
Qed.

(** A branch of [register] that answers 400. *)
Ltac answered_400 :=
  split; [by intros n ?|]; split; [|by intros u n ?];
  intros r [= <-]; simpl; split; [by left|]; split; intros; discriminate.

(** X25. On either storage branch, [register] goes on to hash the password
    and to create a user only when the awaited lookup found no account, the
    email and the username are not empty, the email passes the pattern, the
    password has at least six characters and the role is ['student'], or
    ['admin'] with the admin code; the user it creates has the email, the
    username and the password of the request.  Otherwise it answers 400,
    403 or 409 and creates nothing: 409 whenever the checks of the body
    pass and the lookup found an account, and 403 only for role ['admin']
    without the admin code. *)
Theorem register_checks_sound (b : Auth.RegisterBody)
    (existingUser : option Auth.Account) :
  (∀ n, register_checks b existingUser = inr n →
     existingUser = None
     ∧ Auth.r_email b = Some (Auth.n_email n) ∧ Auth.n_email n ≠ ""
     ∧ Auth.r_username b = Some (Auth.n_username n)
     ∧ Auth.n_username n ≠ ""
     ∧ Auth.r_password b = Some (Auth.n_password n)
     ∧ (6 ≤ String.length (Auth.n_password n))%nat
     ∧ emailRegex_test (Auth.n_email n) = true
     ∧ Auth.n_role n = default "student" (Auth.r_role b)
     ∧ (Auth.n_role n = "student"
        ∨ Auth.n_role n = "admin" ∧ Auth.r_adminCode b = Some ADMIN_CODE))
  ∧ (∀ r, register_checks b existingUser = inl r →
       (Auth.status r = 400 ∨ Auth.status r = 403 ∨ Auth.status r = 409)
       ∧ (Auth.status r = 403 →
          default "student" (Auth.r_role b) = "admin"
          ∧ Auth.r_adminCode b ≠ Some ADMIN_CODE)
       ∧ (Auth.status r = 409 → existingUser ≠ None))
  ∧ (∀ u n, register_checks b None = inr n →
       ∃ r, register_checks b (Some u) = inl r ∧ Auth.status r = 409).
Proof.
  unfold Auth.register_checks.
  destruct (Auth.r_email b) as [em|] eqn:Hem;
    [|answered_400].
  destruct (Auth.r_username b) as [un|] eqn:Hun;
    [|answered_400].
  destruct (Auth.r_password b) as [pw|] eqn:Hpw;
    [|answered_400].
  destruct (negb (truthy (Some em)) || negb (truthy (Some un))
            || negb (truthy (Some pw))) eqn:Hmiss;
    [answered_400|].
  apply orb_false_iff in Hmiss as [Hmiss _].
  apply orb_false_iff in Hmiss as [He Hu].
  apply negb_false_iff, truthy_Some in He, Hu.
  destruct (negb (emailRegex_test em)) eqn:Hre;
    [answered_400|].
  apply negb_false_iff in Hre.
  destruct (bool_decide (String.length pw < 6)%nat) eqn:Hlen;
    [answered_400|].
  apply bool_decide_eq_false in Hlen.
  cbv zeta.
  destruct (bool_decide (default "student" (Auth.r_role b) ≠ "student"
                         ∧ default "student" (Auth.r_role b) ≠ "admin"))
    eqn:Hrole; [answered_400|].
  apply bool_decide_eq_false in Hrole.
  assert (default "student" (Auth.r_role b) = "student"
          ∨ default "student" (Auth.r_role b) = "admin") as Hsa.
  { destruct (decide (default "student" (Auth.r_role b) = "student"));
      [by left|right].
    destruct (decide (default "student" (Auth.r_role b) = "admin"));
      [done | by destruct Hrole]. }
  destruct (bool_decide (default "student" (Auth.r_role b) = "admin")
            && (negb (truthy (Auth.r_adminCode b))
                || bool_decide (Auth.r_adminCode b ≠ Some ADMIN_CODE)))
    eqn:Hcode.
  { split; [done|]. split; [|done]. intros r [= <-]. simpl.
    split; [by right; left|]. split; [|done]. intros _.
    apply andb_true_iff in Hcode as [Hadm%bool_decide_eq_true Hcode].
    split; [done|]. apply orb_true_iff in Hcode as [Hc | Hc].
    - intros E. rewrite E in Hc. apply negb_true_iff in Hc.
      simpl in Hc. apply bool_decide_eq_false in Hc.
      destruct Hc. apply ADMIN_CODE_nonempty.
    - by apply bool_decide_eq_true in Hc. }
  split; [|split].
  - intros n Hn. destruct existingUser as [x|];
      [by destruct (bool_decide (Auth.email x = em))|].
    injection Hn as <-. simpl. repeat (split; [done || lia|]).
    destruct Hsa as [Hs | Ha]; [by left|right]. split; [done|].
    rewrite bool_decide_eq_true_2 in Hcode by done. simpl in Hcode.
    apply orb_false_iff in Hcode as [_ Hcode].
    apply bool_decide_eq_false in Hcode.
    by destruct (decide (Auth.r_adminCode b = Some ADMIN_CODE)).
  - intros r Hr. destruct existingUser as [x|]; [|done].
    destruct (bool_decide (Auth.email x = em)); injection Hr as <-; simpl;
      (split; [by right; right|]); done.
  - intros u n _. destruct (bool_decide (Auth.email u = em)); by eexists.
Qed.

(** X26. On either storage branch, for an identifier and a password that
    are not empty, [login] answers one and the same response, 401 with
    ['Invalid credentials'], when the awaited lookup found no account and
    when bcrypt rejects the password for the hash of the account it found;
    otherwise it answers 200 with a token signed for the id, the username
    and the role of the account found, and with that account's id, email,
    username and role, never its password hash. *)
Theorem login_answer_cases (en : Auth.Entropy) (value pw : string)
    (found : option Auth.Account) :
  value ≠ "" → pw ≠ "" →
  let resp := login_answer en (Auth.mkLogin (Some value) (Some pw)) found in
  match found with
  | None => resp = Auth.mkResponse 401 (Auth.error "Invalid credentials")
  | Some u =>
      if bcrypt_compare pw (Auth.password u)
      then resp
           = Auth.mkResponse 200
               (Auth.authenticated "Login successful"
                  (jwt_sign (Auth.mkClaims (Auth.id u) (Auth.username u)
                               (Auth.role u)) (Auth.iat en))
                  (Auth.mkPublic (Auth.id u) (Auth.email u) (Auth.username u)
                     (Auth.role u) None))
      else resp = Auth.mkResponse 401 (Auth.error "Invalid credentials")
  end.
Proof.
  intros Hv Hp resp. subst resp. unfold Auth.login_answer. simpl.
  rewrite !bool_decide_eq_true_2 by done. simpl.
  destruct found as [u|]; [|done].
  by destruct (bcrypt_compare pw (Auth.password u)).
Qed.

End AccountProperties.

Lemma ann_registered :
  Auth.register (λ _, true) toy_hash toy_sign None ann_registers.1
    ann_registers.2 []
  = ([ann_account],
     Auth.mkResponse 201
       (Auth.authenticated "User registered successfully" "tok"
          (Auth.public ann_account))).
Proof. vm_compute. reflexivity. Qed.

Lemma register_admin_needs_code_witness :
  let b := Auth.mkRegister (Some "eve@example.org") (Some "eve")
             (Some "secret1") (Some "admin") (Some "guess") in
  let r := Auth.register (λ _, true) toy_hash toy_sign None
             ann_registers.1 b [ann_account] in
  r.1 = [ann_account] ∧ Auth.status r.2 ≠ 201.
Proof.
  apply (proj2 (proj2 (register_admin_needs_code (λ _, true) toy_hash toy_sign
                         None ann_registers.1
                         (Auth.mkRegister (Some "eve@example.org") (Some "eve")
                            (Some "secret1") (Some "admin") (Some "guess"))
                         [ann_account])));
    [reflexivity | discriminate].
Defined.

Lemma register_store_effect_witness :
  let r := Auth.register (λ _, true) toy_hash toy_sign None ann_registers.1
             ann_registers.2 [] in
  Auth.status r.2 = 201
  ∧ ∃ acc pw,
      r.1 = [] ++ [acc]
      ∧ Auth.r_email ann_registers.2 = Some (Auth.email acc)
      ∧ Auth.email acc ≠ ""
      ∧ Auth.r_username ann_registers.2 = Some (Auth.username acc)
      ∧ Auth.username acc ≠ ""
      ∧ (λ _ : string, true) (Auth.email acc) = true
      ∧ (Auth.role acc = "student" ∨ Auth.role acc = "admin")
      ∧ Auth.r_password ann_registers.2 = Some pw
      ∧ (6 ≤ String.length pw)%nat
      ∧ Auth.password acc = toy_hash (Auth.salt ann_registers.1) pw
      ∧ Auth.id acc = Auth.generated_id ann_registers.1.
Proof.
  assert (Auth.status
            (Auth.register (λ _, true) toy_hash toy_sign None ann_registers.1
               ann_registers.2 []).2 = 201) as Hs
    by (vm_compute; reflexivity).
  split; [exact Hs|].
  exact (proj2 (register_store_effect (λ _, true) toy_hash toy_sign None
                  ann_registers.1 ann_registers.2 []) Hs).
Defined.

Lemma idents_apart_one : Auth.idents_apart [ann_account].
Proof.
  intros i j u v Hi Hj Hij. destruct i, j; simpl in *; try done.
Qed.

Lemma login_finds_account_witness :
  Auth.login toy_compare toy_sign ann_registers.1
    (Auth.mkLogin (Some "ann") (Some "secret1")) [ann_account]
  = Auth.mkResponse 200
      (Auth.authenticated "Login successful" "tok"
         (Auth.public_login ann_account)).
Proof.
  exact (login_finds_account toy_compare toy_sign ann_registers.1
           [ann_account] 0 ann_account "ann" "secret1" idents_apart_one
           eq_refl (or_intror eq_refl) ltac:(discriminate) ltac:(discriminate)
           ltac:(vm_compute; reflexivity)).
Defined.

Lemma login_failures_alike_witness :
  Auth.login toy_compare toy_sign ann_registers.1
    (Auth.mkLogin (Some "bob") (Some "secret1")) [ann_account]
  = Auth.mkResponse 401 (Auth.error "Invalid credentials")
  ∧ Auth.login toy_compare toy_sign ann_registers.1
      (Auth.mkLogin (Some "ann") (Some "wrong")) [ann_account]
    = Auth.mkResponse 401 (Auth.error "Invalid credentials").
Proof.
  split.
  - apply (proj1 (login_failures_alike toy_compare toy_sign ann_registers.1
                    [ann_account] "bob" "secret1"
                    ltac:(discriminate) ltac:(discriminate))).
    left. vm_compute. reflexivity.
  - apply (proj1 (login_failures_alike toy_compare toy_sign ann_registers.1
                    [ann_account] "ann" "wrong"
                    ltac:(discriminate) ltac:(discriminate))).
    right. exists ann_account. split; vm_compute; reflexivity.
Defined.

Lemma register_then_profile_witness :
  Auth.profile_route toy_verify (Some ("Bearer " +:+ "tok"))
    (Auth.register (λ _, true) toy_hash toy_sign None ann_registers.1
       ann_registers.2 []).1
  = Auth.mkResponse 200 (Auth.profile (Auth.public ann_account)).
Proof.
  apply (register_then_profile (λ _, true) toy_hash toy_sign toy_verify None
           ann_registers.1 ann_registers.2 [] "User registered successfully"
           "tok" (Auth.public ann_account)
           (Auth.mkClaims "u1" "ann" "student"));
    [by rewrite ann_registered | by intros u ?%not_elem_of_nil
    | discriminate | reflexivity | reflexivity].
Defined.

Lemma register_checks_sound_witness :
  ∃ r, Auth.register_checks (λ _, true) None ann_registers.2
         (Some ann_account) = inl r
       ∧ Auth.status r = 409.
Proof.
  exact (proj2 (proj2 (register_checks_sound (λ _, true) None
                         ann_registers.2 None))
           ann_account
           (Auth.mkNewUser "ann@example.org" "ann" "secret1" "student")
           eq_refl).
Defined.

Lemma login_answer_cases_witness :
  Auth.login_answer toy_compare toy_sign ann_registers.1
    (Auth.mkLogin (Some "ann") (Some "wrong")) (Some ann_account)
  = Auth.mkResponse 401 (Auth.error "Invalid credentials")
  ∧ Auth.login_answer toy_compare toy_sign ann_registers.1
      (Auth.mkLogin (Some "nobody") (Some "wrong")) None
    = Auth.mkResponse 401 (Auth.error "Invalid credentials").
Proof.
  split.
  - exact (login_answer_cases toy_compare toy_sign ann_registers.1 "ann"
             "wrong" (Some ann_account) ltac:(discriminate)
             ltac:(discriminate)).
  - exact (login_answer_cases toy_compare toy_sign ann_registers.1 "nobody"
             "wrong" None ltac:(discriminate) ltac:(discriminate)).
Defined.

Lemma inherited_target_misfires_witness :
  let st := run ann_and_bo appState in
  is_admin "a" st = true
  ∧ users st !! "constructor" = None ∧ ("constructor" ∉ sockets st)
  ∧ handle "a" (In.kick_user "constructor") st
    = Done st [io_to_classroom st (Out.user_left "constructor")].
Proof.
  assert (is_admin "a" (run ann_and_bo appState) = true) as Ha
    by (vm_compute; reflexivity).
  assert ("constructor" = "__proto__"
          ∨ "constructor" ∈ Object_prototype_functions) as Ht
    by (right; compute_done).
  split; [exact Ha|].
  exact (let H := inherited_target_misfires ann_and_bo "a" "constructor"
                    false Ha Ht in
         conj (proj1 H) (conj (proj1 (proj2 H)) (proj1 (proj2 (proj2 H))))).
Defined.
